(** * SlidingWindowTransform (openbr/plugins/imgproc/slidingwindow.cpp)

    A shallow embedding of the multi-scale sliding-window detector and
    of the properties its specification states about it.

    The transform is written against three outside parties, which the
    embedding keeps as interfaces: the matrix type of the imaging
    library (resize, region of interest), the abstract [Classifier]
    and the rectangle clusterer [groupRectangles].  Machine numbers are
    modelled as the code has them: [int] as [Z] with 32-bit wrap-around,
    [double] as the kernel's binary64 floats; a [float] property or
    score is held as the [double] it widens to.

    Left out, because no result depends on them: the scratch buffer the
    resampled image is written to, the debug line printed for every
    window, and [train], which hands the data to the classifier. *)

From Stdlib Require Import ZArith Floats Uint63 Lia Bool.
From stdpp Require Import base option list gmap strings.

Local Open Scope Z_scope.

(** ** Machine numbers *)

Module Int32.

Definition INT_MIN : Z := - 2 ^ 31.
Definition INT_MAX : Z := 2 ^ 31 - 1.

Definition in_range (z : Z) : bool := (INT_MIN <=? z) && (z <=? INT_MAX).

(** Two's-complement wrap-around of a 32-bit [int]. *)
Definition wrap (z : Z) : Z := (z + 2 ^ 31) mod 2 ^ 32 - 2 ^ 31.

Definition add (a b : Z) : Z := wrap (a + b).
Definition sub (a b : Z) : Z := wrap (a - b).

End Int32.

Module Double.

(** [int] to [double]: exact for every 32-bit value. *)
Definition of_int (z : Z) : float :=
  if z <? 0 then PrimFloat.opp (PrimFloat.of_uint63 (Uint63.of_Z (- z)))
  else PrimFloat.of_uint63 (Uint63.of_Z z).

(** The integer nearest to [m * 2^e], ties to the even one. *)
Definition round_half_even (m : positive) (e : Z) : Z :=
  if 0 <=? e then Z.shiftl (Z.pos m) e
  else
    let d := Z.shiftl 1 (- e) in
    let q := Z.pos m / d in
    let r := Z.pos m mod d in
    match 2 * r ?= d with
    | Lt => q
    | Gt => q + 1
    | Eq => if Z.even q then q else q + 1
    end.

(** [cvRound]: rounds to the nearest integer under the default rounding
    mode (ties to even); a value that does not fit an [int], an
    infinity or a NaN gives the "integer indefinite" value [INT_MIN]
    of the SSE2 conversion. *)
Definition cvRound (v : float) : Z :=
  match Prim2SF v with
  | S754_zero _ => 0
  | S754_finite s m e =>
      let n := round_half_even m e in
      let n := if s then - n else n in
      if Int32.in_range n then n else Int32.INT_MIN
  | S754_infinity _ | S754_nan => Int32.INT_MIN
  end.

End Double.

(** ** Geometry *)

Record Size : Type := mkSize { width : Z; height : Z }.

Record Rect : Type := mkRect { rx : Z; ry : Z; rwidth : Z; rheight : Z }.

Definition rectAt (x y : Z) (sz : Size) : Rect :=
  mkRect x y (width sz) (height sz).


Definition withinb (cols rows : Z) (r : Rect) : bool :=
  (0 <=? rx r) && (0 <=? ry r) && (rx r + rwidth r <=? cols) && (ry r + rheight r <=? rows).

(** ** Outcomes

    Two loops of [project] have no bound in the source, so the
    embedding runs them on fuel; indexing a vector past its end is the
    other way a run can fail to produce a value. *)

Inductive outcome (A : Type) : Type :=
| Done (a : A)
| OutOfFuel
| OutOfRange.

Arguments Done {A} a.
Arguments OutOfFuel {A}.
Arguments OutOfRange {A}.

#[global] Instance outcome_ret : MRet outcome := fun A a => Done a.

#[global] Instance outcome_bind : MBind outcome := fun A B k o =>
  match o with
  | Done a => k a
  | OutOfFuel => OutOfFuel
  | OutOfRange => OutOfRange
  end.

(** ** Interfaces of the outside parties *)

(** The matrix operations [project] uses.  [resize] is the linear
    resampling to a given size, [roi] the cloned sub-matrix
    [m(Rect(...)).clone()], [cvtUChar] the conversion to 8-bit samples. *)
Class MatOps (Mat : Type) : Type := {
  rows : Mat -> Z;
  cols : Mat -> Z;
  cvtUChar : Mat -> Mat;
  resize : Mat -> Size -> Mat;
  roi : Mat -> Rect -> Mat
}.

(** The abstract [Classifier]: [C] is the state of a trained model,
    [Node] a node of a model file. *)
Class ClassifierOps (Mat C Node : Type) : Type := {
  windowSize : C -> Size;
  classify : C -> Mat -> float;
  read : C -> Node -> C;
  write : C -> Node
}.

(** The three parallel vectors [rects], [rejectLevels], [levelWeights]. *)
Record Candidates : Type := mkCandidates {
  rects : list Rect;
  rejectLevels : list Z;
  levelWeights : list float
}.

Definition noCandidates : Candidates := mkCandidates [] [] [].

(** The three [push_back]s of a positive window. *)
Definition push_back (c : Candidates) (r : Rect) (result : float) : Candidates :=
  mkCandidates (rects c ++ [r]) (rejectLevels c ++ [1]) (levelWeights c ++ [result]).

(** [groupRectangles(rects, rejectLevels, levelWeights, minNeighbors, eps)]
    rewrites the three vectors in place. *)
Definition Clusterer : Type := Candidates -> Z -> float -> Candidates.

(** The properties of the transform. *)
Record SlidingWindowTransform (C : Type) : Type := mkTransform {
  classifier : C;
  minSize : Z;
  maxSize : Z;
  scaleFactor : float;
  minNeighbors : Z;
  eps : float;
  cascadeDir : string
}.

Arguments classifier {C} _.
Arguments minSize {C} _.
Arguments maxSize {C} _.
Arguments scaleFactor {C} _.
Arguments minNeighbors {C} _.
Arguments eps {C} _.
Arguments cascadeDir {C} _.

(** ** Records and their metadata *)

Inductive QVariant : Type :=
| QBool (b : bool)
| QInt (z : Z)
| QDouble (d : float)
| QRectF (r : Rect)
| QRectList (l : list Rect).

Record File : Type := mkFile {
  name : string;
  metadata : gmap string QVariant
}.

(** Modelled from the spec: the metadata operations of a record's
    [File], whose code is not part of this source file.  [getBool]
    reads the optional per-input flag (absent means false); [set]
    attaches a value under a key; [appendRect] adds a rectangle to the
    generic bounding-box attribute; [fromRect] widens the integer
    rectangle to real coordinates without changing a value. *)
Definition getBool (f : File) (key : string) : bool :=
  match metadata f !! key with
  | Some (QBool b) => b
  | Some _ => true
  | None => false
  end.

Definition set (key : string) (v : QVariant) (f : File) : File :=
  mkFile (name f) (<[key := v]> (metadata f)).

Definition fileRects (f : File) : list Rect :=
  match metadata f !! "Rects" with
  | Some (QRectList l) => l
  | _ => []
  end.

Definition fromRect (r : Rect) : Rect := r.

Definition appendRect (r : Rect) (f : File) : File :=
  set "Rects" (QRectList (fileRects f ++ [r])) f.

(** A [Template], as [project] uses it: a list of matrices ([t.size()],
    [t[i]], [t.empty()]) with a [File] ([t.file]). *)
Record Template (Mat : Type) : Type := mkTemplate {
  file : File;
  mats : list Mat
}.

Arguments mkTemplate {Mat} _ _.
Arguments file {Mat} _.
Arguments mats {Mat} _.

Definition empty {Mat : Type} (t : Template Mat) : bool :=
  match mats t with [] => true | _ => false end.

(** ** The scan (lines 91-131) *)

Section Scan.

Context {Mat C Node : Type} `{MatOps Mat} `{ClassifierOps Mat C Node}.
Variable self : SlidingWindowTransform C.

Definition originalWindowSize : Size := windowSize (classifier self).

Definition minObjectSize : Size := mkSize (minSize self) (minSize self).

(** Lines 92-94. *)
Definition maxObjectSize (image : Mat) : Size :=
  let given := mkSize (maxSize self) (maxSize self) in
  if (height given <=? 0) || (width given <=? 0)
  then mkSize (cols image) (rows image)
  else given.

(** Lines 101-103. *)
Definition scaledWindowSize (factor : float) : Size :=
  mkSize (Double.cvRound (Double.of_int (width originalWindowSize) * factor))
         (Double.cvRound (Double.of_int (height originalWindowSize) * factor)).

Definition scaledImageSize (image : Mat) (factor : float) : Size :=
  mkSize (Double.cvRound (Double.of_int (cols image) / factor))
         (Double.cvRound (Double.of_int (rows image) / factor)).

Definition processingRectSize (image : Mat) (factor : float) : Size :=
  mkSize (Int32.sub (width (scaledImageSize image factor)) (width originalWindowSize))
         (Int32.sub (height (scaledImageSize image factor)) (height originalWindowSize)).

(** Lines 105-108: the two [break]s. *)
Definition stops (image : Mat) (factor : float) : bool :=
  ((width (processingRectSize image factor) <=? 0)
   || (height (processingRectSize image factor) <=? 0))
  || ((width (scaledWindowSize factor) >? width (maxObjectSize image))
      || (height (scaledWindowSize factor) >? height (maxObjectSize image))).

(** Line 109: the [continue]. *)
Definition skips (factor : float) : bool :=
  (width (scaledWindowSize factor) <? width minObjectSize)
  || (height (scaledWindowSize factor) <? height minObjectSize).

(** Line 115. *)
Definition yStep (factor : float) : Z := if (2 <? factor)%float then 1 else 2.

(** Line 118 and 120: the score of the window at [(x, y)]. *)
Definition score (scaledImage : Mat) (x y : Z) : float :=
  classify (classifier self) (roi scaledImage (rectAt x y originalWindowSize)).

(** Line 123: the rectangle of a positive window, in the coordinates of
    the original image. *)
Definition candidateRect (factor : float) (x y : Z) : Rect :=
  rectAt (Double.cvRound (Double.of_int x * factor))
         (Double.cvRound (Double.of_int y * factor))
         (scaledWindowSize factor).

(** Lines 118-128: the body of the inner loop; it returns the value of
    [x] it leaves behind and the vectors. *)
Definition visit (scaledImage : Mat) (factor : float) (y x : Z) (acc : Candidates)
  : Z * Candidates :=
  let result := score scaledImage x y in
  let acc := if (0 <? result)%float
             then push_back acc (candidateRect factor x y) result
             else acc in
  let x := if (result =? 0)%float then yStep factor else x in
  (x, acc).

(** Line 117: [for (x = ...; x < processingRectSize.width; x += yStep)]. *)
Fixpoint scanRow (fuel : nat) (scaledImage : Mat) (factor : float)
    (pwidth y x : Z) (acc : Candidates) : outcome Candidates :=
  match fuel with
  | O => OutOfFuel
  | S fuel =>
      if x <? pwidth then
        let '(x, acc) := visit scaledImage factor y x acc in
        scanRow fuel scaledImage factor pwidth y (Int32.add x (yStep factor)) acc
      else Done acc
  end.

(** Line 116: [for (y = ...; y < processingRectSize.height; y += yStep)];
    every row starts at [x = 0].  [n] bounds the rows, [fuel] the
    iterations within a row. *)
Fixpoint scanRows (n fuel : nat) (scaledImage : Mat) (factor : float)
    (psize : Size) (y : Z) (acc : Candidates) : outcome Candidates :=
  match n with
  | O => OutOfFuel
  | S n =>
      if y <? height psize then
        acc ← scanRow fuel scaledImage factor (width psize) y 0 acc;
        scanRows n fuel scaledImage factor psize (Int32.add y (yStep factor)) acc
      else Done acc
  end.

(** Lines 112-130: one scanned level of the pyramid. *)
Definition scanLevel (fuel : nat) (image : Mat) (factor : float) (acc : Candidates)
  : outcome Candidates :=
  let scaledImage := resize image (scaledImageSize image factor) in
  scanRows fuel fuel scaledImage factor (processingRectSize image factor) 0 acc.

(** Line 98: [for (double factor = 1; ; factor *= scaleFactor)].
    [levels] bounds the iterations of this loop, [fuel] those of the
    loops of a level. *)
Fixpoint scaleLoop (levels fuel : nat) (image : Mat) (factor : float)
    (acc : Candidates) : outcome Candidates :=
  match levels with
  | O => OutOfFuel
  | S levels =>
      if stops image factor then Done acc
      else if skips factor then
        scaleLoop levels fuel image (factor * scaleFactor self)%float acc
      else
        acc ← scanLevel fuel image factor acc;
        scaleLoop levels fuel image (factor * scaleFactor self)%float acc
  end.

Definition scan (levels fuel : nat) (image : Mat) : outcome Candidates :=
  scaleLoop levels fuel image 1%float noCandidates.

End Scan.

(** ** Vocabulary for the scan's properties *)

Section ScanVocabulary.

Context {Mat C Node : Type} `{MatOps Mat} `{ClassifierOps Mat C Node}.
Variable self : SlidingWindowTransform C.

(** The factor of the [k]-th iteration of the scale loop. *)
Fixpoint factorAt (k : nat) : float :=
  match k with
  | O => 1%float
  | S k => (factorAt k * scaleFactor self)%float
  end.

(** The factor [k] iterations after [factor]. *)
Fixpoint factorFrom (factor : float) (k : nat) : float :=
  match k with
  | O => factor
  | S k => factorFrom (factor * scaleFactor self)%float k
  end.

(** The levels of the given factors, scanned one after the other. *)
Fixpoint scanLevels (fuel : nat) (image : Mat) (factors : list float)
    (acc : Candidates) : outcome Candidates :=
  match factors with
  | [] => Done acc
  | factor :: factors =>
      acc ← scanLevel self fuel image factor acc;
      scanLevels fuel image factors acc
  end.

(** The origins [0, step, 2 * step, ...] below [bound]. *)
Definition origins (step bound : Z) : list Z :=
  (fun i => i * step) <$> seqZ 0 ((bound + step - 1) / step).

(** The window origins of a level: the rows from the top, each row
    from the left. *)
Definition raster (step : Z) (psize : Size) : list (Z * Z) :=
  y ← origins step (height psize);
  (fun x => (x, y)) <$> origins step (width psize).

Definition positive (scaledImage : Mat) (p : Z * Z) : bool :=
  (0 <? score self scaledImage p.1 p.2)%float.

(** One candidate for every listed origin. *)
Definition recorded (scaledImage : Mat) (factor : float) (hits : list (Z * Z))
    (acc : Candidates) : Candidates :=
  mkCandidates
    (rects acc ++ map (fun p => candidateRect self factor p.1 p.2) hits)
    (rejectLevels acc ++ map (fun _ => 1) hits)
    (levelWeights acc ++ map (fun p => score self scaledImage p.1 p.2) hits).

End ScanVocabulary.

(** Two transforms have the same scan parameters and classifier states
    that cannot be told apart: the same window size and the same score
    on every window. *)
Definition sameScanner {Mat C Node : Type} `{ClassifierOps Mat C Node}
    (self1 self2 : SlidingWindowTransform C) : Prop :=
  minSize self1 = minSize self2
  /\ maxSize self1 = maxSize self2
  /\ scaleFactor self1 = scaleFactor self2
  /\ windowSize (classifier self1) = windowSize (classifier self2)
  /\ (forall window, classify (classifier self1) window = classify (classifier self2) window).

(** A run that ends for no amount of fuel. *)
Definition neverEnds {A : Type} (run : nat -> nat -> outcome A) : Prop :=
  forall levels fuel, run levels fuel = OutOfFuel.

(** ** The driver (lines 64-151) *)

Section Project.

Context {Mat C Node : Type} `{MatOps Mat} `{ClassifierOps Mat C Node}.
Variable groupRectangles : Clusterer.
Variable self : SlidingWindowTransform C.

Definition fullImage (image : Mat) : Rect := mkRect 0 0 (cols image) (rows image).

(** Lines 135-136. *)
Definition withFallback (enrollAll : bool) (image : Mat) (c : Candidates) : Candidates :=
  if negb enrollAll && bool_decide (rects c = [])
  then mkCandidates (rects c ++ [fullImage image]) (rejectLevels c) (levelWeights c)
  else c.

(** Lines 140-143. *)
Definition confidence (c : Candidates) (j : nat) : outcome QVariant :=
  if (j <? length (rejectLevels c))%nat then
    match rejectLevels c !! j, levelWeights c !! j with
    | Some l, Some w => Done (QDouble (Double.of_int l * w))
    | _, _ => OutOfRange
    end
  else Done (QInt 1).

(** Lines 139-146: the record of the rectangle [r = rects[j]]. *)
Definition detection (f : File) (image : Mat) (c : Candidates) (j : nat) (r : Rect)
  : outcome (Template Mat) :=
  conf ← confidence c j;
  let rect := fromRect r in
  mret (mkTemplate (set "Face" (QRectF rect) (appendRect rect (set "Confidence" conf f)))
                   [image]).

(** Line 138: [for (j = 0; j < rects.size(); j++)], over the rectangles
    from index [j] on. *)
Fixpoint emit (f : File) (image : Mat) (c : Candidates) (j : nat) (rest : list Rect)
    (dst : list (Template Mat)) : outcome (list (Template Mat)) :=
  match rest with
  | [] => Done dst
  | r :: rest =>
      u ← detection f image c j r;
      emit f image c (S j) rest (dst ++ [u])
  end.

(** Lines 84-148: one matrix of the template. *)
Definition projectImage (levels fuel : nat) (f : File) (enrollAll : bool) (m : Mat)
    (dst : list (Template Mat)) : outcome (list (Template Mat)) :=
  let image := cvtUChar m in
  c ← scan self levels fuel image;
  let c := groupRectangles c (minNeighbors self) (eps self) in
  let c := withFallback enrollAll image c in
  emit f image c 0 (rects c) dst.

(** Line 83: [for (i = 0; i < t.size(); i++)]. *)
Fixpoint projectMats (levels fuel : nat) (f : File) (enrollAll : bool) (ms : list Mat)
    (dst : list (Template Mat)) : outcome (list (Template Mat)) :=
  match ms with
  | [] => Done dst
  | m :: ms =>
      dst ← projectImage levels fuel f enrollAll m dst;
      projectMats levels fuel f enrollAll ms dst
  end.

(** Lines 71-151: [project(const TemplateList &src, TemplateList &dst)]. *)
Fixpoint project_list (levels fuel : nat) (src : list (Template Mat))
    (dst : list (Template Mat)) : outcome (list (Template Mat)) :=
  match src with
  | [] => Done dst
  | t :: src =>
      let enrollAll := getBool (file t) "enrollAll" in
      if empty t && negb enrollAll then
        project_list levels fuel src (dst ++ [t])
      else
        dst ← projectMats levels fuel (file t) enrollAll (mats t) dst;
        project_list levels fuel src dst
  end.

(** Lines 64-69: [project(const Template &src, Template &dst)]. *)
Definition project (levels fuel : nat) (src dst : Template Mat) : outcome (Template Mat) :=
  temp ← project_list levels fuel [src] [];
  mret (match temp with
        | [] => dst
        | first :: _ => first
        end).

End Project.

(** The record [project] emits for the rectangle [r] of [image]. *)
Definition emitted {Mat : Type} (f : File) (image : Mat) (conf : QVariant) (r : Rect)
  : Template Mat :=
  mkTemplate (set "Face" (QRectF r) (appendRect r (set "Confidence" conf f))) [image].

(** ** Loading and storing the model (lines 153-187) *)

(** How a call ends: it returns, with the warnings it logged on the
    way, or it raises. *)
Inductive completion (A : Type) : Type :=
| Returned (a : A) (warnings : list string)
| Raised (what : string).

Arguments Returned {A} a warnings.
Arguments Raised {A} what.

(** A call reports a failure when it raises or logs a warning. *)
Definition reportsFailure {A : Type} (r : completion A) : Prop :=
  match r with
  | Returned _ warnings => warnings <> []
  | Raised _ => True
  end.

Section Persistence.

Context {Mat C Node : Type} `{ClassifierOps Mat C Node}.
Variable sdkPath : string.

Definition cascadePath (self : SlidingWindowTransform C) : string :=
  sdkPath +:+ "/share/openbr/models/openbrcascades/" +:+ cascadeDir self.

Definition cascadeFile (self : SlidingWindowTransform C) : string :=
  cascadePath self +:+ "/cascade.xml".

(** Lines 153-165.  [disk] maps the paths that open for reading to the
    first top-level node of the file. *)
Definition load (disk : gmap string Node) (self : SlidingWindowTransform C)
  : completion (SlidingWindowTransform C) :=
  match disk !! cascadeFile self with
  | None => Returned self []
  | Some node =>
      Returned (mkTransform C (read (classifier self) node) (minSize self) (maxSize self)
                  (scaleFactor self) (minNeighbors self) (eps self) (cascadeDir self))
               []
  end.

(** Lines 167-187.  [writable] tells the paths that open for writing. *)
Definition store (writable : string -> bool) (disk : gmap string Node)
    (self : SlidingWindowTransform C) : completion (gmap string Node) :=
  if writable (cascadeFile self)
  then Returned (<[cascadeFile self := write (classifier self)]> disk) []
  else Returned disk ["Unable to open file: " +:+ cascadeFile self].

End Persistence.

(** ** The clusterer *)

Module Clustering.

(** Modelled from the spec: the Detection Clusterer (section 4.2), whose
    code ([groupRectangles]) is not part of this source file.  Two
    rectangles are equivalent when their intersection, relative to the
    smaller of the two, exceeds [1 - eps] along the width and along the
    height; classes are grown over the candidate list; a class with
    fewer than [minNeighbors] members is discarded; a surviving class
    gives the coordinate-wise average of its members, rounded, with the
    sum of their scores, under the constant reject level 1. *)

Definition Member : Type := Rect * float.

Definition overlap (a alen b blen : Z) : Z :=
  Z.max 0 (Z.min (a + alen) (b + blen) - Z.max a b).

Definition similar (eps : float) (r1 r2 : Rect) : bool :=
  let w := overlap (rx r1) (rwidth r1) (rx r2) (rwidth r2) in
  let h := overlap (ry r1) (rheight r1) (ry r2) (rheight r2) in
  ((1 - eps <? Double.of_int w / Double.of_int (Z.min (rwidth r1) (rwidth r2)))
   && (1 - eps <? Double.of_int h / Double.of_int (Z.min (rheight r1) (rheight r2))))%float.

Definition touches (eps : float) (m : Member) (class : list Member) : bool :=
  existsb (fun m' => similar eps (fst m) (fst m')) class.

(** The classes [m] touches merge into one, which takes the place of
    the first of them; [m] alone starts a class at the end. *)
Fixpoint place (merged : list Member) (hit : list Member -> bool)
    (classes : list (list Member)) : list (list Member) :=
  match classes with
  | [] => [merged]
  | c :: cs =>
      if hit c then merged :: filter (fun c' => negb (hit c')) cs
      else c :: place merged hit cs
  end.

Definition addMember (eps : float) (classes : list (list Member)) (m : Member)
  : list (list Member) :=
  place (concat (filter (touches eps m) classes) ++ [m]) (touches eps m) classes.

Definition classesOf (eps : float) (members : list Member) : list (list Member) :=
  fold_left (addMember eps) members [].

(** The integer nearest to [s / n], ties to the even one. *)
Definition roundedAverage (s n : Z) : Z :=
  let q := s / n in
  match 2 * (s mod n) ?= n with
  | Lt => q
  | Gt => q + 1
  | Eq => if Z.even q then q else q + 1
  end.

Definition total (f : Rect -> Z) (class : list Member) : Z :=
  fold_right (fun m s => f (fst m) + s) 0 class.

Definition representative (class : list Member) : Rect :=
  let n := Z.of_nat (length class) in
  mkRect (roundedAverage (total rx class) n) (roundedAverage (total ry class) n)
         (roundedAverage (total rwidth class) n) (roundedAverage (total rheight class) n).

Definition aggregate (class : list Member) : float :=
  fold_left (fun s m => (s + snd m)%float) class 0%float.

Definition survives (minNeighbors : Z) (class : list Member) : bool :=
  negb (Z.of_nat (length class) <? minNeighbors).

Definition groupRectangles : Clusterer := fun c minNeighbors eps =>
  let members := zip (rects c) (levelWeights c) in
  let kept := filter (survives minNeighbors) (classesOf eps members) in
  mkCandidates (map representative kept) (map (fun _ => 1) kept) (map aggregate kept).


End Clustering.

(** ** A free model of the matrices

    A matrix is recorded by how it was obtained from a source image; a
    pixel-level implementation of [resize] and [roi] interprets these
    terms, and a classifier of such an implementation is a classifier
    here. *)

Inductive SymMat : Type :=
| Source (image_rows image_cols : Z)
| Resized (m : SymMat) (sz : Size)
| Roi (m : SymMat) (r : Rect).

Definition symRows (m : SymMat) : Z :=
  match m with
  | Source r _ => r
  | Resized _ sz => height sz
  | Roi _ r => rheight r
  end.

Definition symCols (m : SymMat) : Z :=
  match m with
  | Source _ c => c
  | Resized _ sz => width sz
  | Roi _ r => rwidth r
  end.

#[global] Instance symMatOps : MatOps SymMat := {
  rows := symRows;
  cols := symCols;
  cvtUChar := fun m => m;
  resize := Resized;
  roi := Roi
}.

(** A classifier given by its window size and its score on every
    window: position [(x, y)] of the image resampled to [sz]. *)
Record Oracle : Type := mkOracle {
  oracleWindow : Size;
  oracleScore : Size -> Z -> Z -> float
}.

Definition oracleClassify (o : Oracle) (m : SymMat) : float :=
  match m with
  | Roi (Resized _ sz) r => oracleScore o sz (rx r) (ry r)
  | _ => (-1)%float
  end.

(** A model file holds the classifier it was written from. *)
#[global] Instance oracleOps : ClassifierOps SymMat Oracle Oracle := {
  windowSize := oracleWindow;
  classify := oracleClassify;
  read := fun _ node => node;
  write := fun o => o
}.

(** ** Vocabulary for the invariants of the scan *)

(** The candidates [project] builds at lines 123-125: the three vectors
    are of one length, every reject level is 1 and every weight is a
    score above 0. *)
Definition wellFormed (c : Candidates) : Prop :=
  length (rejectLevels c) = length (rects c)
  /\ length (levelWeights c) = length (rects c)
  /\ Forall (fun level => level = 1) (rejectLevels c)
  /\ Forall (fun weight => (0 <? weight)%float = true) (levelWeights c).

(** The size of a rectangle is one the scale loop lets through (lines
    107-110) for the given image. *)
Definition sizeAllowed {Mat C Node : Type} `{MatOps Mat} `{ClassifierOps Mat C Node}
    (self : SlidingWindowTransform C) (image : Mat) (r : Rect) : Prop :=
  minSize self <= rwidth r <= width (maxObjectSize self image)
  /\ minSize self <= rheight r <= height (maxObjectSize self image).

(** [Inv] survives the [push_back]s of a positive window of the level. *)
Definition keptByLevel {Mat C Node : Type} `{MatOps Mat} `{ClassifierOps Mat C Node}
    (self : SlidingWindowTransform C) (Inv : Candidates -> Prop)
    (scaledImage : Mat) (factor : float) : Prop :=
  forall acc x y,
    Inv acc ->
    (0 <? score self scaledImage x y)%float = true ->
    Inv (push_back acc (candidateRect self factor x y) (score self scaledImage x y)).

(** * Concrete runs *)

Module Runs.

(** The single-precision values 1.2, 1.1 and 0.2, widened to [double]. *)
Definition f1_2 : float := 0x1.333334p+0%float.
Definition f1_1 : float := 0x1.19999ap+0%float.
Definition f0_2 : float := 0x1.99999ap-3%float.

Definition sizeIs (sz : Size) (w h : Z) : bool := (width sz =? w) && (height sz =? h).

(** Rejects every window. *)
Definition rejecting (w h : Z) : Oracle :=
  mkOracle (mkSize w h) (fun _ _ _ => (-1)%float).

(** Scores 0 at the first window of the first level, 1 at its
    neighbour two pixels to the right, -1 elsewhere. *)
Definition zeroThenOne : Oracle :=
  mkOracle (mkSize 8 8) (fun sz x y =>
    if sizeIs sz 12 11 && (x =? 0) && (y =? 0) then 0%float
    else if sizeIs sz 12 11 && (x =? 2) && (y =? 0) then 1%float
    else (-1)%float).

(** Accepts one window at each of two neighbouring levels, both at the
    right border of a 71 x 71 image. *)
Definition twoAtTheBorder : Oracle :=
  mkOracle (mkSize 8 8) (fun sz x y =>
    if (sizeIs sz 65 65 && (x =? 56) && (y =? 0))
       || (sizeIs sz 59 59 && (x =? 50) && (y =? 0))
    then 1%float else (-1)%float).

Definition transform (o : Oracle) (minSize : Z) (scaleFactor : float) (minNeighbors : Z)
  : SlidingWindowTransform Oracle :=
  mkTransform Oracle o minSize (-1) scaleFactor minNeighbors f0_2 "frontal".

Definition plain : File := mkFile "probe.jpg" ∅.
Definition enrolling : File := mkFile "probe.jpg" {["enrollAll" := QBool true]}.

Definition skipping : SlidingWindowTransform Oracle := transform zeroThenOne 8 f1_2 1.
Definition firstLevel : SymMat := Resized (Source 11 12) (mkSize 12 11).

(** Scores 1 at the third window of the first row of the first level,
    0 at the fourth, -1 elsewhere. *)
Definition oneThenZero : Oracle :=
  mkOracle (mkSize 8 8) (fun sz x y =>
    if sizeIs sz 16 11 && (x =? 4) && (y =? 0) then 1%float
    else if sizeIs sz 16 11 && (x =? 6) && (y =? 0) then 0%float
    else (-1)%float).

Definition returning : SlidingWindowTransform Oracle := transform oneThenZero 8 f1_2 1.
Definition wideLevel : SymMat := Resized (Source 11 16) (mkSize 16 11).

(** Two candidates for the window at [(4, 0)]. *)
Definition twice : Candidates :=
  mkCandidates [mkRect 4 0 8 8; mkRect 4 0 8 8] [1; 1] [1%float; 1%float].

Definition bordering : SlidingWindowTransform Oracle := transform twoAtTheBorder 8 f1_1 1.

(** The same classifier, with its two windows told in the other order. *)
Definition twoAtTheBorder' : Oracle :=
  mkOracle (mkSize 8 8) (fun sz x y =>
    if (sizeIs sz 59 59 && (x =? 50) && (y =? 0))
       || (sizeIs sz 65 65 && (x =? 56) && (y =? 0))
    then 1%float else (-1)%float).

Definition bordering' : SlidingWindowTransform Oracle := transform twoAtTheBorder' 8 f1_1 1.

Definition borderImage : Template SymMat := mkTemplate plain [Source 71 71].

(** The candidates of the scan of that image. *)
Definition borderCandidates : Candidates :=
  mkCandidates [mkRect 62 0 9 9; mkRect 61 0 10 10] [1; 1] [1%float; 1%float].

Definition borderLevel : SymMat :=
  resize (Source 71 71) (scaledImageSize (Source 71 71) f1_1).

(** No matrix at all, and a matrix of zero area. *)
Definition noImage : Template SymMat := mkTemplate plain [].
Definition noImageEnrolling : Template SymMat := mkTemplate enrolling [].
Definition zeroArea : Template SymMat := mkTemplate plain [Source 0 0].

(** Two matrices in one Template. *)
Definition twoImages : Template SymMat := mkTemplate plain [Source 30 40; Source 50 60].

(** Accepts every window. *)
Definition accepting (w h : Z) : Oracle :=
  mkOracle (mkSize w h) (fun _ _ _ => 1%float).

Definition greedy : SlidingWindowTransform Oracle := transform (accepting 20 20) 20 f1_2 5.

(** The defaults of the transform, on a classifier that rejects all. *)
Definition default : SlidingWindowTransform Oracle := transform (rejecting 20 20) 20 f1_2 5.

(** [minSize] above the image. *)
Definition oversized : SlidingWindowTransform Oracle := transform (rejecting 20 20) 200 f1_2 5.

(** [scaleFactor = 1]. *)
Definition stuck : SlidingWindowTransform Oracle := transform (rejecting 20 20) 20 1%float 5.

(** [scaleFactor = 1] and [minSize] above the image. *)
Definition stuckOversized : SlidingWindowTransform Oracle :=
  transform (rejecting 20 20) 200 1%float 5.

End Runs.

(** Further runs, of the driver and of its records. *)
Module MoreRuns.

(** A file that already carries a label, a rectangle and a confidence. *)
Definition labelled : File :=
  mkFile "probe.jpg"
    {["Label" := QInt 3; "Rects" := QRectList [mkRect 1 2 3 4]; "Confidence" := QInt 7]}.

Definition labelledRecord : Template SymMat :=
  mkTemplate
    (mkFile "probe.jpg"
       (<["Face" := QRectF (mkRect 0 0 40 30)]>
          (<["Rects" := QRectList [mkRect 1 2 3 4; mkRect 0 0 40 30]]>
             (<["Confidence" := QInt 1]> (metadata labelled)))))
    [Source 30 40].

(** The records of [Runs.noImage] followed by [Runs.twoImages]. *)
Definition threeRecords : list (Template SymMat) :=
  [Runs.noImage;
   emitted Runs.plain (Source 30 40) (QInt 1) (mkRect 0 0 40 30);
   emitted Runs.plain (Source 50 60) (QInt 1) (mkRect 0 0 60 50)].

(** The labelled file, without an image. *)
Definition labelledNoImage : Template SymMat := mkTemplate labelled [].

End MoreRuns.

(** * Properties *)

(** ** Machine numbers *)

Lemma wrap_small (z : Z) :
  Int32.INT_MIN <= z <= Int32.INT_MAX -> Int32.wrap z = z.
Proof.
  unfold Int32.wrap, Int32.INT_MIN, Int32.INT_MAX. intros Hz.
  rewrite Z.mod_small; lia.
Qed.

Lemma wrap_range (z : Z) : Int32.INT_MIN <= Int32.wrap z <= Int32.INT_MAX.
Proof.
  unfold Int32.wrap, Int32.INT_MIN, Int32.INT_MAX.
  pose proof (Z.mod_pos_bound (z + 2 ^ 31) (2 ^ 32)). lia.
Qed.

(** A score equal to zero is not positive. *)
Lemma zero_not_positive (r : float) :
  (r =? 0)%float = true -> (0 <? r)%float = false.
Proof.
  rewrite FloatAxioms.eqb_spec, FloatAxioms.ltb_spec.
  change (Prim2SF 0) with (S754_zero false).
  destruct (Prim2SF r) as [s | s | | s m e]; try destruct s; cbn; congruence.
Qed.

(** A negative score is neither positive nor zero. *)
Lemma negative_not_positive (r : float) :
  (r <? 0)%float = true -> (0 <? r)%float = false /\ (r =? 0)%float = false.
Proof.
  rewrite FloatAxioms.eqb_spec, !FloatAxioms.ltb_spec.
  change (Prim2SF 0) with (S754_zero false).
  destruct (Prim2SF r) as [s | s | | s m e]; try destruct s; cbn; split; congruence.
Qed.

Lemma one_times_one : (1 * 1)%float = 1%float.
Proof. reflexivity. Qed.

(** ** Outcomes *)

Lemma bind_Done {A B : Type} (o : outcome A) (k : A -> outcome B) (b : B) :
  o ≫= k = Done b -> exists a, o = Done a /\ k a = Done b.
Proof. destruct o as [a | |]; cbn; intros Hk; try discriminate. eauto. Qed.

(** ** The scan of one level *)

Section ScanFacts.

Context {Mat C Node : Type} `{MatOps Mat} `{ClassifierOps Mat C Node}.
Variable self : SlidingWindowTransform C.

Lemma yStep_cases (factor : float) : yStep factor = 1 \/ yStep factor = 2.
Proof. unfold yStep. destruct (2 <? factor)%float; auto. Qed.

Lemma scanRow_step fuel scaledImage factor pwidth y x acc :
  x < pwidth ->
  scanRow self (S fuel) scaledImage factor pwidth y x acc
  = scanRow self fuel scaledImage factor pwidth y
      (Int32.add (visit self scaledImage factor y x acc).1 (yStep factor))
      (visit self scaledImage factor y x acc).2.
Proof.
  intros Hx. cbn [scanRow].
  destruct (Z.ltb_spec x pwidth) as [_ | Hge]; [| lia].
  destruct (visit self scaledImage factor y x acc); reflexivity.
Qed.

Lemma scanRow_exit fuel scaledImage factor pwidth y x acc :
  pwidth <= x ->
  scanRow self (S fuel) scaledImage factor pwidth y x acc = Done acc.
Proof.
  intros Hx. cbn [scanRow].
  destruct (Z.ltb_spec x pwidth) as [Hlt | _]; [lia | reflexivity].
Qed.

(** C3: in the inner raster scan, a score exactly equal to 0 at
    [(x, y)] sets [x] to the step size (1 if the factor exceeds 2,
    else 2) before the loop's increment, so the row goes on from twice
    the step; a score strictly below 0 is a plain advance by the step;
    neither records a candidate. *)
Theorem zero_score_restarts_row fuel scaledImage factor pwidth y x acc :
  x < pwidth ->
  yStep factor = (if (2 <? factor)%float then 1 else 2)
  /\ ((score self scaledImage x y =? 0)%float = true ->
      visit self scaledImage factor y x acc = (yStep factor, acc)
      /\ scanRow self (S fuel) scaledImage factor pwidth y x acc
         = scanRow self fuel scaledImage factor pwidth y
             (Int32.add (yStep factor) (yStep factor)) acc)
  /\ ((score self scaledImage x y <? 0)%float = true ->
      visit self scaledImage factor y x acc = (x, acc)
      /\ scanRow self (S fuel) scaledImage factor pwidth y x acc
         = scanRow self fuel scaledImage factor pwidth y
             (Int32.add x (yStep factor)) acc).
Proof.
  intros Hx. split; [reflexivity |]. split; intros Hs.
  - assert (Hv : visit self scaledImage factor y x acc = (yStep factor, acc)).
    { unfold visit. rewrite (zero_not_positive _ Hs), Hs. reflexivity. }
    split; [exact Hv |]. rewrite scanRow_step by exact Hx. rewrite Hv. reflexivity.
  - destruct (negative_not_positive _ Hs) as [Hpos Hzero].
    assert (Hv : visit self scaledImage factor y x acc = (x, acc)).
    { unfold visit. rewrite Hpos, Hzero. reflexivity. }
    split; [exact Hv |]. rewrite scanRow_step by exact Hx. rewrite Hv. reflexivity.
Qed.

(** *** A level without zero scores *)

Lemma recorded_nil scaledImage factor acc :
  recorded self scaledImage factor [] acc = acc.
Proof. destruct acc. unfold recorded. cbn. by rewrite !app_nil_r. Qed.

Lemma recorded_app scaledImage factor hits1 hits2 acc :
  recorded self scaledImage factor hits2 (recorded self scaledImage factor hits1 acc)
  = recorded self scaledImage factor (hits1 ++ hits2) acc.
Proof. unfold recorded. cbn. by rewrite !map_app, !app_assoc. Qed.

Lemma visit_no_zero scaledImage factor y x acc :
  (score self scaledImage x y =? 0)%float = false ->
  visit self scaledImage factor y x acc
  = (x, recorded self scaledImage factor (filter (positive self scaledImage) [(x, y)]) acc).
Proof.
  intros Hz. unfold visit. rewrite Hz. f_equal.
  destruct (0 <? score self scaledImage x y)%float eqn:Hp.
  - rewrite filter_cons_True by (unfold positive; cbn; rewrite Hp; exact I). reflexivity.
  - rewrite filter_cons_False by (unfold positive; cbn; rewrite Hp; exact (fun f => f)).
    symmetry. apply recorded_nil.
Qed.

(** The inner loop from the [i]-th origin on, when [k] origins remain. *)
Lemma scanRow_no_zero scaledImage factor pwidth y (k : nat) :
  forall (i : Z) (acc : Candidates) (fuel : nat),
  0 <= i ->
  pwidth < Int32.INT_MAX ->
  pwidth <= (i + Z.of_nat k) * yStep factor ->
  (forall j, i <= j < i + Z.of_nat k -> j * yStep factor < pwidth) ->
  (forall j, i <= j < i + Z.of_nat k ->
     (score self scaledImage (j * yStep factor) y =? 0)%float = false) ->
  (k < fuel)%nat ->
  scanRow self fuel scaledImage factor pwidth y (i * yStep factor) acc
  = Done (recorded self scaledImage factor
            (filter (positive self scaledImage)
               ((fun j => (j * yStep factor, y)) <$> seqZ i (Z.of_nat k))) acc).
Proof.
  induction k as [| k IH]; intros i acc fuel Hi Hmax Hend Hin Hnz Hfuel.
  - destruct fuel as [| fuel]; [lia |].
    rewrite scanRow_exit by lia. cbn. by rewrite recorded_nil.
  - destruct fuel as [| fuel]; [lia |].
    assert (Hlt : i * yStep factor < pwidth) by (apply Hin; lia).
    rewrite scanRow_step by exact Hlt.
    rewrite visit_no_zero by (apply Hnz; lia). cbn [fst snd].
    assert (Hnext : Int32.add (i * yStep factor) (yStep factor) = (i + 1) * yStep factor).
    { unfold Int32.add. rewrite wrap_small; [lia |].
      pose proof (yStep_cases factor). unfold Int32.INT_MIN, Int32.INT_MAX in *. nia. }
    rewrite Hnext.
    rewrite (IH (i + 1) _ fuel); try lia.
    + rewrite recorded_app. rewrite <- filter_app. do 3 f_equal.
      rewrite (seqZ_cons i) by lia. rewrite fmap_cons. cbn [app].
      by replace (Z.pred (Z.of_nat (S k))) with (Z.of_nat k) by lia.
    + intros j Hj. apply Hin. lia.
    + intros j Hj. apply Hnz. lia.
Qed.

Lemma origins_count (step bound : Z) :
  0 < step ->
  let k := Z.to_nat ((bound + step - 1) / step) in
  bound <= Z.of_nat k * step
  /\ (forall j, 0 <= j < Z.of_nat k -> j * step < bound)
  /\ origins step bound = (fun i => i * step) <$> seqZ 0 (Z.of_nat k)
  /\ Z.of_nat k <= Z.max 0 bound.
Proof.
  intros Hstep k.
  pose proof (Z.div_mod (bound + step - 1) step ltac:(lia)) as Hdm.
  pose proof (Z.mod_pos_bound (bound + step - 1) step Hstep) as Hmod.
  set (q := (bound + step - 1) / step) in *.
  assert (Hk : Z.of_nat k = Z.max 0 q) by (subst k; lia).
  repeat split.
  - nia.
  - intros j Hj. nia.
  - unfold origins. fold q. unfold seqZ. subst k. by rewrite Nat2Z.id.
  - nia.
Qed.

Lemma scanRow_whole_row scaledImage factor pwidth y acc fuel :
  pwidth < Int32.INT_MAX ->
  (forall x, 0 <= x < pwidth -> (score self scaledImage x y =? 0)%float = false) ->
  Z.max 0 pwidth < Z.of_nat fuel ->
  scanRow self fuel scaledImage factor pwidth y 0 acc
  = Done (recorded self scaledImage factor
            (filter (positive self scaledImage)
               ((fun x => (x, y)) <$> origins (yStep factor) pwidth)) acc).
Proof.
  intros Hmax Hnz Hfuel.
  assert (Hstep : 0 < yStep factor) by (pose proof (yStep_cases factor); lia).
  destruct (origins_count (yStep factor) pwidth Hstep) as (Hend & Hin & Horig & Hk).
  set (k := Z.to_nat ((pwidth + yStep factor - 1) / yStep factor)) in *.
  rewrite Horig, <- list_fmap_compose.
  change 0 with (0 * yStep factor) at 1.
  apply scanRow_no_zero; try lia.
  - intros j Hj. apply Hin. lia.
  - intros j Hj. apply Hnz. split; [nia |]. apply Hin. lia.
Qed.

Lemma scanRows_step n fuel scaledImage factor psize y acc :
  y < height psize ->
  scanRows self (S n) fuel scaledImage factor psize y acc
  = scanRow self fuel scaledImage factor (width psize) y 0 acc
    ≫= scanRows self n fuel scaledImage factor psize (Int32.add y (yStep factor)).
Proof.
  intros Hy. cbn [scanRows].
  destruct (Z.ltb_spec y (height psize)) as [_ | Hge]; [reflexivity | lia].
Qed.

Lemma scanRows_exit n fuel scaledImage factor psize y acc :
  height psize <= y ->
  scanRows self (S n) fuel scaledImage factor psize y acc = Done acc.
Proof.
  intros Hy. cbn [scanRows].
  destruct (Z.ltb_spec y (height psize)) as [Hlt | _]; [lia | reflexivity].
Qed.

(** The outer loop from the [i]-th row on, when [k] rows remain. *)
Lemma scanRows_no_zero scaledImage factor psize fuel (k : nat) :
  forall (i : Z) (acc : Candidates) (n : nat),
  0 <= i ->
  width psize < Int32.INT_MAX ->
  height psize < Int32.INT_MAX ->
  height psize <= (i + Z.of_nat k) * yStep factor ->
  (forall j, i <= j < i + Z.of_nat k -> j * yStep factor < height psize) ->
  (forall x y, 0 <= x < width psize -> 0 <= y < height psize ->
     (score self scaledImage x y =? 0)%float = false) ->
  (k < n)%nat ->
  Z.max 0 (width psize) < Z.of_nat fuel ->
  scanRows self n fuel scaledImage factor psize (i * yStep factor) acc
  = Done (recorded self scaledImage factor
            (filter (positive self scaledImage)
               (((fun j => j * yStep factor) <$> seqZ i (Z.of_nat k))
                ≫= (fun y => (fun x => (x, y)) <$> origins (yStep factor) (width psize))))
            acc).
Proof.
  induction k as [| k IH]; intros i acc n Hi Hw Hh Hend Hin Hnz Hn Hfuel.
  - destruct n as [| n]; [lia |].
    rewrite scanRows_exit by lia. cbn. by rewrite recorded_nil.
  - destruct n as [| n]; [lia |].
    assert (Hstep : 0 < yStep factor) by (pose proof (yStep_cases factor); lia).
    assert (Hlt : i * yStep factor < height psize) by (apply Hin; lia).
    rewrite scanRows_step by exact Hlt.
    rewrite scanRow_whole_row; try lia.
    2:{ intros x Hx. apply Hnz; [exact Hx | nia]. }
    cbn [mbind outcome_bind].
    assert (Hnext : Int32.add (i * yStep factor) (yStep factor) = (i + 1) * yStep factor).
    { unfold Int32.add. rewrite wrap_small; [lia |].
      pose proof (yStep_cases factor). unfold Int32.INT_MIN, Int32.INT_MAX in *. nia. }
    rewrite Hnext.
    rewrite (IH (i + 1) _ n); try lia.
    + rewrite recorded_app. rewrite <- filter_app. do 3 f_equal.
      rewrite (seqZ_cons i) by lia. rewrite fmap_cons, bind_cons.
      by replace (Z.pred (Z.of_nat (S k))) with (Z.of_nat k) by lia.
    + intros j Hj. apply Hin. lia.
    + exact Hnz.
Qed.

(** C5 (as amended): at a scanned scale factor none of whose windows
    scores exactly 0, the level ends and records exactly one candidate
    for every window origin of the raster whose score is strictly
    greater than 0, in raster order, with the rectangle
    [(round(x*factor), round(y*factor), round(w*factor), round(h*factor))]
    and the score as its weight, and no candidate for any other
    window; the raster lists no origin twice.  ([processingRectSize]
    is below [INT_MAX], so that the loop counters do not wrap.) *)
Theorem level_records_positive_windows fuel image factor acc :
  let psize := processingRectSize self image factor in
  let scaledImage := resize image (scaledImageSize image factor) in
  (forall x y, 0 <= x < width psize -> 0 <= y < height psize ->
     (score self scaledImage x y =? 0)%float = false) ->
  width psize < Int32.INT_MAX ->
  height psize < Int32.INT_MAX ->
  Z.max 0 (Z.max (width psize) (height psize)) < Z.of_nat fuel ->
  scanLevel self fuel image factor acc
  = Done (recorded self scaledImage factor
            (filter (positive self scaledImage) (raster (yStep factor) psize)) acc)
  /\ NoDup (raster (yStep factor) psize)
  /\ (forall x y, candidateRect self factor x y
       = mkRect (Double.cvRound (Double.of_int x * factor))
                (Double.cvRound (Double.of_int y * factor))
                (Double.cvRound (Double.of_int (width (windowSize (classifier self))) * factor))
                (Double.cvRound (Double.of_int (height (windowSize (classifier self))) * factor))).
Proof.
  intros psize scaledImage Hnz Hw Hh Hfuel.
  assert (Hstep : 0 < yStep factor) by (pose proof (yStep_cases factor); lia).
  split; [| split; [| reflexivity]].
  - unfold scanLevel. fold psize scaledImage. clearbody psize scaledImage.
    destruct (origins_count (yStep factor) (height psize) Hstep) as (Hend & Hin & Horig & Hk).
    unfold raster. rewrite Horig.
    set (k := Z.to_nat ((height psize + yStep factor - 1) / yStep factor)) in *.
    clearbody k.
    change 0 with (0 * yStep factor) at 1.
    apply scanRows_no_zero; try lia; try assumption.
  - unfold raster. apply NoDup_bind.
    + intros y1 y2 [x y] _ _ Hy1 Hy2.
      apply list_elem_of_fmap in Hy1 as (x1 & Hx1 & _).
      apply list_elem_of_fmap in Hy2 as (x2 & Hx2 & _). congruence.
    + intros y _. apply NoDup_fmap_2_strong; [intros x1 x2 _ _; congruence |].
      unfold origins. apply NoDup_fmap_2_strong; [| apply NoDup_seqZ].
      intros i1 i2 _ _ Hi. nia.
    + unfold origins. apply NoDup_fmap_2_strong; [| apply NoDup_seqZ].
      intros i1 i2 _ _ Hi. nia.
Qed.

(** *** The scale loop *)

Lemma factorFrom_S factor k :
  factorFrom self factor (S k) = (factorFrom self factor k * scaleFactor self)%float.
Proof. revert factor. induction k as [| k IH]; intros factor; [reflexivity |]. apply (IH _). Qed.

Lemma factorFrom_one k : factorFrom self 1%float k = factorAt self k.
Proof.
  induction k as [| k IH]; [reflexivity |].
  rewrite factorFrom_S, IH. reflexivity.
Qed.

Lemma scaleLoop_stop levels fuel image factor acc :
  stops self image factor = true ->
  scaleLoop self (S levels) fuel image factor acc = Done acc.
Proof. intros Hs. cbn [scaleLoop]. by rewrite Hs. Qed.

Lemma scaleLoop_skip levels fuel image factor acc :
  stops self image factor = false ->
  skips self factor = true ->
  scaleLoop self (S levels) fuel image factor acc
  = scaleLoop self levels fuel image (factor * scaleFactor self)%float acc.
Proof. intros Hs Hk. cbn [scaleLoop]. by rewrite Hs, Hk. Qed.

Lemma scaleLoop_level levels fuel image factor acc :
  stops self image factor = false ->
  skips self factor = false ->
  scaleLoop self (S levels) fuel image factor acc
  = scanLevel self fuel image factor acc
    ≫= scaleLoop self levels fuel image (factor * scaleFactor self)%float.
Proof. intros Hs Hk. cbn [scaleLoop]. by rewrite Hs, Hk. Qed.

(** The loop, started anywhere, up to the first factor that stops it. *)
Lemma scaleLoop_until_stop fuel image (k0 : nat) :
  forall (factor : float) (acc : Candidates) (levels : nat),
  stops self image (factorFrom self factor k0) = true ->
  (forall j, (j < k0)%nat -> stops self image (factorFrom self factor j) = false) ->
  (k0 < levels)%nat ->
  scaleLoop self levels fuel image factor acc
  = scanLevels self fuel image
      (filter (fun f => negb (skips self f)) (factorFrom self factor <$> seq 0 k0)) acc.
Proof.
  induction k0 as [| k0 IH]; intros factor acc levels Hstop Hgo Hlevels;
    (destruct levels as [| levels]; [lia |]).
  - by rewrite scaleLoop_stop.
  - assert (Hhere : stops self image factor = false) by (apply (Hgo 0%nat); lia).
    assert (Hrest : forall a,
      scaleLoop self levels fuel image (factor * scaleFactor self)%float a
      = scanLevels self fuel image
          (filter (fun f => negb (skips self f))
             (factorFrom self factor <$> seq 1 k0)) a).
    { intros a. rewrite <- fmap_S_seq, <- list_fmap_compose.
      apply IH; [exact Hstop | | lia].
      intros j Hj. apply (Hgo (S j)). lia. }
    cbn [seq]. rewrite fmap_cons. cbn [factorFrom].
    destruct (skips self factor) eqn:Hskip.
    + rewrite scaleLoop_skip by assumption.
      rewrite filter_cons_False by (rewrite Hskip; exact (fun f => f)).
      apply Hrest.
    + rewrite scaleLoop_level by assumption.
      rewrite filter_cons_True by (rewrite Hskip; exact I).
      cbn [scanLevels].
      destruct (scanLevel self fuel image factor acc) as [a | |]; cbn; [apply Hrest | done..].
Qed.

(** C4: the scale loop starts at factor 1.0 and multiplies the factor
    by [scaleFactor] at each step; it ends at the first factor at
    which [processingRectSize = round(imageSize / factor) -
    nativeWindowSize] is non-positive or [round(nativeWindowSize *
    factor)] exceeds [maxObjectSize] (the image size when [maxSize] is
    not positive) in either dimension; of the factors before that one
    it scans exactly those at which [round(nativeWindowSize * factor)]
    is at least [minObjectSize] in both dimensions, and passes over the
    others without ending. *)
Theorem scale_loop_scans_until_first_stop levels fuel image (k0 : nat) :
  stops self image (factorAt self k0) = true ->
  (forall j, (j < k0)%nat -> stops self image (factorAt self j) = false) ->
  (k0 < levels)%nat ->
  scan self levels fuel image
  = scanLevels self fuel image
      (filter (fun f => negb (skips self f)) (factorAt self <$> seq 0 k0)) noCandidates
  /\ factorAt self 0 = 1%float
  /\ (forall k, factorAt self (S k) = (factorAt self k * scaleFactor self)%float)
  /\ (forall f, stops self image f = true <->
        width (processingRectSize self image f) <= 0
        \/ height (processingRectSize self image f) <= 0
        \/ width (scaledWindowSize self f) > width (maxObjectSize self image)
        \/ height (scaledWindowSize self f) > height (maxObjectSize self image))
  /\ (forall f, skips self f = false <->
        minSize self <= width (scaledWindowSize self f)
        /\ minSize self <= height (scaledWindowSize self f))
  /\ maxObjectSize self image
     = (if maxSize self <=? 0 then mkSize (cols image) (rows image)
        else mkSize (maxSize self) (maxSize self))
  /\ (forall f, processingRectSize self image f
       = mkSize (Int32.sub (Double.cvRound (Double.of_int (cols image) / f))
                           (width (windowSize (classifier self))))
                (Int32.sub (Double.cvRound (Double.of_int (rows image) / f))
                           (height (windowSize (classifier self))))).
Proof.
  intros Hstop Hgo Hlevels.
  split; [| split; [reflexivity |]; split; [reflexivity |]; split; [| split; [| split]]].
  - unfold scan. rewrite (scaleLoop_until_stop fuel image k0).
    + do 2 f_equal. apply list_fmap_ext. intros _ k _. apply factorFrom_one.
    + by rewrite factorFrom_one.
    + intros j Hj. rewrite factorFrom_one. by apply Hgo.
    + exact Hlevels.
  - intros f. unfold stops. rewrite !orb_true_iff, !Z.leb_le, !Z.gtb_gt. tauto.
  - intros f. unfold skips, minObjectSize. cbn [width height].
    rewrite orb_false_iff, !Z.ltb_ge. tauto.
  - unfold maxObjectSize. cbn [width height].
    by destruct (maxSize self <=? 0).
  - reflexivity.
Qed.

(** *** Degenerate parameters *)

(** With [minObjectSize] above [maxObjectSize] in a dimension, a factor
    that does not end the loop is passed over. *)
Lemma min_above_max_skips image factor :
  width (maxObjectSize self image) < minSize self
  \/ height (maxObjectSize self image) < minSize self ->
  stops self image factor = false ->
  skips self factor = true.
Proof.
  unfold stops, skips, minObjectSize. cbn [width height].
  rewrite !orb_false_iff, !orb_true_iff, !Z.ltb_lt, !Z.gtb_ltb, !Z.ltb_ge. lia.
Qed.

Lemma scaleLoop_skipping_until_stop fuel image (k0 : nat) :
  forall (factor : float) (acc : Candidates) (levels : nat),
  stops self image (factorFrom self factor k0) = true ->
  (forall j, (j < k0)%nat -> stops self image (factorFrom self factor j) = false) ->
  (forall j, (j < k0)%nat -> skips self (factorFrom self factor j) = true) ->
  (k0 < levels)%nat ->
  scaleLoop self levels fuel image factor acc = Done acc.
Proof.
  induction k0 as [| k0 IH]; intros factor acc levels Hstop Hgo Hskip Hlevels;
    (destruct levels as [| levels]; [lia |]).
  - by rewrite scaleLoop_stop.
  - rewrite scaleLoop_skip; [| apply (Hgo 0%nat); lia | apply (Hskip 0%nat); lia].
    apply IH; [exact Hstop | | | lia].
    + intros j Hj. apply (Hgo (S j)). lia.
    + intros j Hj. apply (Hskip (S j)). lia.
Qed.

Lemma scaleLoop_skipping_forever fuel image (levels : nat) :
  forall (factor : float) (acc : Candidates),
  (forall j, stops self image (factorFrom self factor j) = false) ->
  (forall j, skips self (factorFrom self factor j) = true) ->
  scaleLoop self levels fuel image factor acc = OutOfFuel.
Proof.
  induction levels as [| levels IH]; intros factor acc Hgo Hskip; [reflexivity |].
  rewrite scaleLoop_skip; [| apply (Hgo 0%nat) | apply (Hskip 0%nat)].
  apply IH.
  - intros j. apply (Hgo (S j)).
  - intros j. apply (Hskip (S j)).
Qed.

(** With [scaleFactor = 1] the factor stays at 1.0. *)
Lemma scaleLoop_fixed_factor fuel image (levels : nat) :
  forall (acc c : Candidates),
  scaleFactor self = 1%float ->
  stops self image 1%float = false ->
  scaleLoop self levels fuel image 1%float acc <> Done c.
Proof.
  induction levels as [| levels IH]; intros acc c Hone Hgo; [discriminate |].
  cbn [scaleLoop]. rewrite Hgo, Hone, one_times_one.
  destruct (skips self 1%float).
  - by apply IH.
  - destruct (scanLevel self fuel image 1%float acc) as [a | |]; cbn; [| done..].
    by apply IH.
Qed.

(** C6 (as amended): with [minSize] above the resolved [maxObjectSize]
    in a dimension (so with [minSize] larger than the image when
    [maxSize] is unset) no level is scanned: the scale loop ends with
    zero candidates at the first factor that meets a stop condition,
    and never ends when no factor meets one.  With [scaleFactor = 1]
    the factor stays at 1.0: the loop ends at once, with zero
    candidates, when factor 1.0 meets a stop condition, and never ends
    otherwise. *)
Theorem degenerate_scan_ends_only_at_a_stop image :
  (width (maxObjectSize self image) < minSize self
   \/ height (maxObjectSize self image) < minSize self ->
   (forall k0 levels fuel,
      stops self image (factorAt self k0) = true ->
      (forall j, (j < k0)%nat -> stops self image (factorAt self j) = false) ->
      (k0 < levels)%nat ->
      scan self levels fuel image = Done noCandidates)
   /\ ((forall k, stops self image (factorAt self k) = false) ->
       neverEnds (fun levels fuel => scan self levels fuel image)))
  /\ (scaleFactor self = 1%float ->
      (forall k, factorAt self k = 1%float)
      /\ (stops self image 1%float = true ->
          forall levels fuel, scan self (S levels) fuel image = Done noCandidates)
      /\ (stops self image 1%float = false ->
          forall levels fuel c, scan self levels fuel image <> Done c)).
Proof.
  split.
  - intros Hdeg. split.
    + intros k0 levels fuel Hstop Hgo Hlevels. unfold scan.
      apply (scaleLoop_skipping_until_stop fuel image k0); [| | | exact Hlevels].
      * by rewrite factorFrom_one.
      * intros j Hj. rewrite factorFrom_one. by apply Hgo.
      * intros j Hj. apply (min_above_max_skips image); [exact Hdeg |].
        rewrite factorFrom_one. by apply Hgo.
    + intros Hgo levels fuel. unfold scan. apply scaleLoop_skipping_forever.
      * intros j. rewrite factorFrom_one. apply Hgo.
      * intros j. apply (min_above_max_skips image); [exact Hdeg |].
        rewrite factorFrom_one. apply Hgo.
  - intros Hone. split; [| split].
    + induction k as [| k IH]; [reflexivity |].
      cbn [factorAt]. rewrite IH, Hone. apply one_times_one.
    + intros Hstop levels fuel. unfold scan. by apply scaleLoop_stop.
    + intros Hgo levels fuel c. unfold scan. by apply scaleLoop_fixed_factor.
Qed.

(** *** More fuel changes no result *)

Lemma scanRow_more_fuel scaledImage factor pwidth y (fuel : nat) :
  forall (fuel' : nat) (x : Z) (acc a : Candidates),
  scanRow self fuel scaledImage factor pwidth y x acc = Done a ->
  (fuel <= fuel')%nat ->
  scanRow self fuel' scaledImage factor pwidth y x acc = Done a.
Proof.
  induction fuel as [| fuel IH]; intros fuel' x acc a Hrun Hle; [discriminate |].
  destruct fuel' as [| fuel']; [lia |].
  cbn [scanRow] in *. destruct (x <? pwidth); [| exact Hrun].
  destruct (visit self scaledImage factor y x acc) as [x' acc'].
  apply IH; [exact Hrun | lia].
Qed.

Lemma scanRows_more_fuel scaledImage factor psize (n : nat) :
  forall (n' fuel fuel' : nat) (y : Z) (acc a : Candidates),
  scanRows self n fuel scaledImage factor psize y acc = Done a ->
  (n <= n')%nat -> (fuel <= fuel')%nat ->
  scanRows self n' fuel' scaledImage factor psize y acc = Done a.
Proof.
  induction n as [| n IH]; intros n' fuel fuel' y acc a Hrun Hn Hfuel; [discriminate |].
  destruct n' as [| n']; [lia |].
  cbn [scanRows] in *. destruct (y <? height psize); [| exact Hrun].
  apply bind_Done in Hrun as (acc' & Hrow & Hrest).
  rewrite (scanRow_more_fuel _ _ _ _ _ _ _ _ _ Hrow Hfuel). cbn.
  apply (IH n' fuel); [exact Hrest | lia | exact Hfuel].
Qed.

Lemma scaleLoop_more_fuel image (levels : nat) :
  forall (levels' fuel fuel' : nat) (factor : float) (acc a : Candidates),
  scaleLoop self levels fuel image factor acc = Done a ->
  (levels <= levels')%nat -> (fuel <= fuel')%nat ->
  scaleLoop self levels' fuel' image factor acc = Done a.
Proof.
  induction levels as [| levels IH]; intros levels' fuel fuel' factor acc a Hrun Hl Hfuel;
    [discriminate |].
  destruct levels' as [| levels']; [lia |].
  cbn [scaleLoop] in *. destruct (stops self image factor); [exact Hrun |].
  destruct (skips self factor).
  - apply (IH levels' fuel); [exact Hrun | lia | exact Hfuel].
  - apply bind_Done in Hrun as (acc' & Hlevel & Hrest).
    unfold scanLevel in *.
    rewrite (scanRows_more_fuel _ _ _ _ _ _ _ _ _ _ Hlevel Hfuel Hfuel). cbn.
    apply (IH levels' fuel); [exact Hrest | lia | exact Hfuel].
Qed.

End ScanFacts.

(** ** Determinism of the scan *)

Section Determinism.

Context {Mat C Node : Type} `{MatOps Mat} `{ClassifierOps Mat C Node}.
Variables self1 self2 : SlidingWindowTransform C.

Hypothesis Hsame : sameScanner self1 self2.

Lemma visit_same scaledImage factor y x acc :
  visit self1 scaledImage factor y x acc = visit self2 scaledImage factor y x acc.
Proof.
  destruct Hsame as (_ & _ & _ & Hw & Hc).
  unfold visit, score, candidateRect, scaledWindowSize, originalWindowSize.
  by rewrite Hw, Hc.
Qed.

Lemma scanRow_same scaledImage factor pwidth y (fuel : nat) :
  forall (x : Z) (acc : Candidates),
  scanRow self1 fuel scaledImage factor pwidth y x acc
  = scanRow self2 fuel scaledImage factor pwidth y x acc.
Proof.
  induction fuel as [| fuel IH]; intros x acc; [reflexivity |].
  cbn [scanRow]. rewrite visit_same.
  destruct (x <? pwidth); [| reflexivity].
  destruct (visit self2 scaledImage factor y x acc). apply IH.
Qed.

Lemma scanRows_same scaledImage factor psize fuel (n : nat) :
  forall (y : Z) (acc : Candidates),
  scanRows self1 n fuel scaledImage factor psize y acc
  = scanRows self2 n fuel scaledImage factor psize y acc.
Proof.
  induction n as [| n IH]; intros y acc; [reflexivity |].
  cbn [scanRows]. rewrite scanRow_same.
  destruct (y <? height psize); [| reflexivity].
  destruct (scanRow self2 fuel scaledImage factor (width psize) y 0 acc); cbn; [apply IH | done..].
Qed.

Lemma scaleLoop_same fuel image (levels : nat) :
  forall (factor : float) (acc : Candidates),
  scaleLoop self1 levels fuel image factor acc = scaleLoop self2 levels fuel image factor acc.
Proof.
  destruct Hsame as (Hmin & Hmax & Hsf & Hw & Hc).
  assert (Hp : forall f, processingRectSize self1 image f = processingRectSize self2 image f).
  { intros f. unfold processingRectSize, originalWindowSize. by rewrite Hw. }
  assert (Hs : forall f, scaledWindowSize self1 f = scaledWindowSize self2 f).
  { intros f. unfold scaledWindowSize, originalWindowSize. by rewrite Hw. }
  induction levels as [| levels IH]; intros factor acc; [reflexivity |].
  cbn [scaleLoop].
  replace (stops self1 image factor) with (stops self2 image factor)
    by (unfold stops, maxObjectSize; by rewrite Hp, Hs, Hmax).
  replace (skips self1 factor) with (skips self2 factor)
    by (unfold skips, minObjectSize; by rewrite Hs, Hmin).
  rewrite Hsf. destruct (stops self2 image factor); [reflexivity |].
  destruct (skips self2 factor); [apply IH |].
  unfold scanLevel. rewrite Hp, scanRows_same.
  destruct (scanRows self2 fuel fuel _ factor _ 0 acc); cbn; [apply IH | done..].
Qed.

(** C9: the scan is deterministic.  Two runs on the same image with the
    same scan parameters and the same classifier state (or two states
    with the same window size and the same score on every window) that
    both end give identical candidates: the same rectangles, reject
    levels and scores, in the same order, whatever fuel each run was
    given. *)
Theorem scan_deterministic image levels1 fuel1 levels2 fuel2 (a b : Candidates) :
  scan self1 levels1 fuel1 image = Done a ->
  scan self2 levels2 fuel2 image = Done b ->
  a = b.
Proof.
  unfold scan. intros Ha Hb.
  apply (scaleLoop_more_fuel self1 image levels1 (levels1 `max` levels2)%nat
           fuel1 (fuel1 `max` fuel2)%nat) in Ha; [| lia..].
  apply (scaleLoop_more_fuel self2 image levels2 (levels1 `max` levels2)%nat
           fuel2 (fuel1 `max` fuel2)%nat) in Hb; [| lia..].
  rewrite scaleLoop_same in Ha. congruence.
Qed.

End Determinism.

(** ** The clusterer *)


Section ClusteringFacts.

Import Clustering.

(** What [project] relies on: the three vectors come back aligned. *)
Lemma groupRectangles_aligned (c : Candidates) (minNeighbors : Z) (eps : float) :
  length (rejectLevels (groupRectangles c minNeighbors eps))
  = length (rects (groupRectangles c minNeighbors eps))
  /\ length (levelWeights (groupRectangles c minNeighbors eps))
     = length (rects (groupRectangles c minNeighbors eps)).
Proof. unfold groupRectangles. cbn. by rewrite !length_map. Qed.

Variable Q : Member -> Prop.




End ClusteringFacts.





(** ** The driver *)

Section ProjectFacts.

Context {Mat C Node : Type} `{MatOps Mat} `{ClassifierOps Mat C Node}.
Variable groupRectangles : Clusterer.
Variable self : SlidingWindowTransform C.

Lemma withFallback_cases enrollAll image c :
  (enrollAll = false /\ rects c = []
   /\ withFallback enrollAll image c
      = mkCandidates [fullImage image] (rejectLevels c) (levelWeights c))
  \/ (~ (enrollAll = false /\ rects c = []) /\ withFallback enrollAll image c = c).
Proof.
  unfold withFallback. destruct enrollAll; cbn [negb andb].
  - right. split; [intros [? _]; discriminate | reflexivity].
  - case_bool_decide as Hr.
    + left. rewrite Hr. by repeat split.
    + right. split; [tauto | reflexivity].
Qed.

(** C1: once the candidates of an image are clustered, the synthetic
    detection of the full image [(0, 0, cols, rows)] is appended if and
    only if [enrollAll] is false and the clustered set is empty, and
    its record then carries the confidence 1 exactly; with [enrollAll]
    true and no cluster, no record is emitted. *)
Theorem fallback_iff_no_cluster levels fuel f enrollAll m dst raw :
  let image := cvtUChar m in
  let clusters := groupRectangles raw (minNeighbors self) (eps self) in
  scan self levels fuel image = Done raw ->
  length (rejectLevels clusters) = length (rects clusters) ->
  (rects (withFallback enrollAll image clusters)
     = rects clusters ++ [mkRect 0 0 (cols image) (rows image)]
   <-> enrollAll = false /\ rects clusters = [])
  /\ (~ (enrollAll = false /\ rects clusters = []) ->
      projectImage groupRectangles self levels fuel f enrollAll m dst
      = emit f image clusters 0 (rects clusters) dst)
  /\ (enrollAll = false -> rects clusters = [] ->
      projectImage groupRectangles self levels fuel f enrollAll m dst
      = Done (dst ++ [emitted f image (QInt 1) (mkRect 0 0 (cols image) (rows image))]))
  /\ (enrollAll = true -> rects clusters = [] ->
      projectImage groupRectangles self levels fuel f enrollAll m dst = Done dst).
Proof.
  intros image clusters Hscan Haligned.
  assert (Hrun : projectImage groupRectangles self levels fuel f enrollAll m dst
                 = emit f image (withFallback enrollAll image clusters) 0
                     (rects (withFallback enrollAll image clusters)) dst).
  { unfold projectImage. fold image. rewrite Hscan. reflexivity. }
  destruct (withFallback_cases enrollAll image clusters)
    as [(He & Hr & Hw) | (Hno & Hw)]; rewrite Hw in *; cbn [rects] in *.
  - assert (Hlevels : rejectLevels clusters = []).
    { apply length_zero_iff_nil. by rewrite Haligned, Hr. }
    split; [| split; [| split]].
    + split; [intros _; by split | intros _; by rewrite Hr].
    + intros Hno. exfalso. tauto.
    + intros _ _. rewrite Hrun. cbn [emit]. unfold detection, confidence.
      cbn [rejectLevels]. rewrite Hlevels. reflexivity.
    + intros He'. congruence.
  - split; [| split; [| split]].
    + split; [| tauto].
      intros Heq. apply (f_equal length) in Heq. rewrite length_app in Heq. cbn in Heq. lia.
    + intros _. exact Hrun.
    + intros He Hr. exfalso. tauto.
    + intros He Hr. rewrite Hrun, Hr. reflexivity.
Qed.

(** C8 (as amended): an input that holds no image at all (an empty
    list of matrices) and whose [enrollAll] flag is false is emitted
    unchanged: the same record, with no rectangle or confidence
    attached, and without any step of the scan or of the clustering
    (no fuel is needed). *)
Theorem empty_template_passes_through levels fuel (t : Template Mat) src dst :
  empty t = true ->
  getBool (file t) "enrollAll" = false ->
  project_list groupRectangles self levels fuel [t] dst = Done (dst ++ [t])
  /\ project_list groupRectangles self 0 0 [t] dst = Done (dst ++ [t])
  /\ project_list groupRectangles self levels fuel (t :: src) dst
     = project_list groupRectangles self levels fuel src (dst ++ [t]).
Proof.
  intros Hempty Hflag. cbn [project_list]. rewrite Hempty, Hflag. by cbn.
Qed.

(** C10: [project] on a single Template runs the list version on the
    one-element list and keeps the first record of its result: the
    records after the first are dropped, and when there is none (as for
    an empty Template with [enrollAll] true) the destination is left as
    it was. *)
Theorem project_keeps_first_record levels fuel (src dst : Template Mat) temp :
  project_list groupRectangles self levels fuel [src] [] = Done temp ->
  project groupRectangles self levels fuel src dst
  = Done (match temp with [] => dst | first :: _ => first end)
  /\ (forall first rest, temp = first :: rest ->
      project groupRectangles self levels fuel src dst = Done first)
  /\ (temp = [] -> project groupRectangles self levels fuel src dst = Done dst)
  /\ (empty src = true -> getBool (file src) "enrollAll" = true -> temp = []).
Proof.
  intros Hlist.
  assert (Hrun : project groupRectangles self levels fuel src dst
                 = Done (match temp with [] => dst | first :: _ => first end)).
  { unfold project. rewrite Hlist. reflexivity. }
  repeat split.
  - exact Hrun.
  - intros first rest ->. exact Hrun.
  - intros ->. exact Hrun.
  - intros Hempty Hflag. cbn [project_list] in Hlist.
    rewrite Hflag in Hlist. cbn [negb] in Hlist. rewrite andb_false_r in Hlist.
    unfold empty in Hempty. destruct (mats src); [| discriminate].
    cbn in Hlist. congruence.
Qed.

End ProjectFacts.

Section EmittedRectangles.

Context {Mat C Node : Type} `{MatOps Mat} `{ClassifierOps Mat C Node}.
Variable self : SlidingWindowTransform C.

Lemma emit_cons f (image : Mat) c j r rest dst conf :
  confidence c j = Done conf ->
  emit f image c j (r :: rest) dst
  = emit f image c (S j) rest (dst ++ [emitted f image conf r]).
Proof. intros Hconf. cbn [emit]. unfold detection. by rewrite Hconf. Qed.

Lemma emit_records f (image : Mat) c (rest : list Rect) :
  forall (j : nat) (dst : list (Template Mat)),
  (forall i, (j <= i < j + length rest)%nat ->
     (i < length (rejectLevels c))%nat -> (i < length (levelWeights c))%nat) ->
  exists out,
    emit f image c j rest dst = Done (dst ++ out)
    /\ Forall2 (fun u r => exists conf, u = emitted f image conf r) out rest.
Proof.
  induction rest as [| r rest IH]; intros j dst Hlw.
  - exists []. cbn. by rewrite app_nil_r.
  - assert (Hconf : exists conf, confidence c j = Done conf).
    { unfold confidence. destruct (Nat.ltb_spec j (length (rejectLevels c))) as [Hj | Hj].
      - destruct (lookup_lt_is_Some_2 (rejectLevels c) j Hj) as [l ->].
        destruct (lookup_lt_is_Some_2 (levelWeights c) j) as [w ->]; [| eauto].
        apply Hlw; [cbn; lia | exact Hj].
      - eauto. }
    destruct Hconf as [conf Hconf].
    destruct (IH (S j) (dst ++ [emitted f image conf r])) as (out & Hrun & Hout).
    { intros i Hi. apply Hlw. cbn. lia. }
    exists (emitted f image conf r :: out). split.
    + rewrite (emit_cons _ _ _ _ _ _ _ _ Hconf), Hrun. by rewrite <- app_assoc.
    + constructor; [eauto | exact Hout].
Qed.


End EmittedRectangles.

(** ** Loading the model *)

Section PersistenceFacts.

Context {Mat C Node : Type} `{ClassifierOps Mat C Node}.
Variable sdkPath : string.

(** What [load] does when the model file is missing or cannot be
    opened: it returns normally without reading anything; the transform
    and its classifier are left as they were, and nothing is logged or
    raised. *)
Lemma load_without_file_returns_silently (disk : gmap string Node)
    (self : SlidingWindowTransform C) :
  disk !! cascadeFile sdkPath self = None ->
  load sdkPath disk self = Returned self []
  /\ ~ reportsFailure (load sdkPath disk self).
Proof.
  intros Hmissing. unfold load. rewrite Hmissing. split; [reflexivity |].
  cbn. auto.
Qed.

(** The sibling path: when the destination does not open for writing,
    [store] logs a warning before it returns, and writes nothing. *)
Lemma store_warns_when_unwritable (writable : string -> bool) (disk : gmap string Node)
    (self : SlidingWindowTransform C) :
  writable (cascadeFile sdkPath self) = false ->
  store sdkPath writable disk self
  = Returned disk ["Unable to open file: " +:+ cascadeFile sdkPath self]
  /\ reportsFailure (store sdkPath writable disk self).
Proof. intros Hw. unfold store. rewrite Hw. split; [reflexivity | discriminate]. Qed.

End PersistenceFacts.

(** * The properties on concrete runs *)

(** ** The inner loop *)

(** The first window of the 12 x 11 level scores 0: the row goes on
    from [x = 4], past the window at [x = 2]. *)
Lemma zero_score_restarts_row_witness :
  visit Runs.skipping Runs.firstLevel 1%float 0 0 noCandidates = (2, noCandidates)
  /\ scanRow Runs.skipping 3 Runs.firstLevel 1%float 4 0 0 noCandidates
     = scanRow Runs.skipping 2 Runs.firstLevel 1%float 4 0 4 noCandidates.
Proof.
  apply (proj1 (proj2 (zero_score_restarts_row Runs.skipping 2 Runs.firstLevel 1%float
                         4 0 0 noCandidates ltac:(lia)))).
  reflexivity.
Defined.

(** The row of [Runs.returning] comes back to [x = 4] from [x = 6]
    for ever. *)
Lemma returning_row_never_ends (fuel : nat) :
  forall acc : Candidates,
  scanRow Runs.returning fuel Runs.wideLevel 1%float 8 0 4 acc = OutOfFuel
  /\ scanRow Runs.returning fuel Runs.wideLevel 1%float 8 0 6 acc = OutOfFuel.
Proof.
  induction fuel as [| fuel IH]; intros acc; [by split |].
  split; (rewrite scanRow_step by lia).
  - replace (visit Runs.returning Runs.wideLevel 1%float 0 4 acc)
      with (4, push_back acc (mkRect 4 0 8 8) 1%float) by reflexivity.
    apply IH.
  - replace (visit Runs.returning Runs.wideLevel 1%float 0 6 acc) with (2, acc)
      by reflexivity.
    apply IH.
Qed.

Lemma returning_scan_never_ends :
  neverEnds (fun levels fuel => scan Runs.returning levels fuel (Source 11 16)).
Proof.
  intros [| levels] fuel; [reflexivity |].
  unfold scan. rewrite scaleLoop_level by (vm_compute; reflexivity).
  unfold scanLevel.
  replace (processingRectSize Runs.returning (Source 11 16) 1%float) with (mkSize 8 3)
    by (vm_compute; reflexivity).
  change (resize (Source 11 16) (scaledImageSize (Source 11 16) 1%float))
    with Runs.wideLevel.
  destruct fuel as [| fuel]; [reflexivity |].
  rewrite scanRows_step by (cbn; lia). cbn [width].
  assert (Hrow : scanRow Runs.returning (S fuel) Runs.wideLevel 1%float 8 0 0 noCandidates
                 = OutOfFuel).
  { rewrite scanRow_step by lia.
    replace (visit Runs.returning Runs.wideLevel 1%float 0 0 noCandidates)
      with (0, noCandidates) by reflexivity.
    change (Int32.add (0, noCandidates).1 (yStep 1%float)) with 2. cbn [snd].
    destruct fuel as [| fuel]; [reflexivity |].
    rewrite scanRow_step by lia.
    replace (visit Runs.returning Runs.wideLevel 1%float 0 2 noCandidates)
      with (2, noCandidates) by reflexivity.
    apply returning_row_never_ends. }
  by rewrite Hrow.
Qed.

(** C5, as stated, fails.  On a 12 x 11 image with an 8 x 8 window, the
    window at [(2, 0)] of the first level is an origin of the raster
    and scores 1, yet the scan ends without any candidate: the score 0
    at [(0, 0)] moves the row past it.  On a 16 x 11 image, the score 0
    at [(6, 0)] sends the row back to [x = 4], whose window scores 1:
    after three iterations it is recorded twice, and the scan never
    ends. *)
Lemma zero_score_skips_or_repeats_windows :
  (In (2, 0) (raster (yStep 1%float) (processingRectSize Runs.skipping (Source 11 12) 1%float))
   /\ score Runs.skipping (resize (Source 11 12) (scaledImageSize (Source 11 12) 1%float)) 2 0
      = 1%float
   /\ scan Runs.skipping 10 10 (Source 11 12) = Done noCandidates)
  /\ (score Runs.returning Runs.wideLevel 4 0 = 1%float
      /\ (forall fuel,
            scanRow Runs.returning (3 + fuel) Runs.wideLevel 1%float 8 0 4 noCandidates
            = scanRow Runs.returning fuel Runs.wideLevel 1%float 8 0 6 Runs.twice)
      /\ neverEnds (fun levels fuel => scan Runs.returning levels fuel (Source 11 16))).
Proof.
  split.
  - vm_compute. intuition.
  - split; [reflexivity |]. split; [| exact returning_scan_never_ends].
    intros fuel. reflexivity.
Qed.

(** The second level of the 71 x 71 image has no zero score. *)
Lemma level_records_positive_windows_witness :
  scanLevel Runs.bordering 100 (Source 71 71) Runs.f1_1 noCandidates
  = Done (recorded Runs.bordering Runs.borderLevel Runs.f1_1
            (filter (positive Runs.bordering Runs.borderLevel)
                    (raster (yStep Runs.f1_1)
                            (processingRectSize Runs.bordering (Source 71 71) Runs.f1_1)))
            noCandidates).
Proof.
  apply (level_records_positive_windows Runs.bordering 100 (Source 71 71) Runs.f1_1
           noCandidates).
  - intros x y _ _. unfold score. cbn.
    match goal with |- context [if ?b then _ else _] => destruct b end; reflexivity.
  - vm_compute. reflexivity.
  - vm_compute. reflexivity.
  - vm_compute. reflexivity.
Defined.

(** ** The scale loop *)

(** With the defaults on a 100 x 100 image the loop ends at the tenth
    factor. *)
Lemma scale_loop_scans_until_first_stop_witness :
  scan Runs.default 12 60 (Source 100 100)
  = scanLevels Runs.default 60 (Source 100 100)
      (filter (fun f => negb (skips Runs.default f)) (factorAt Runs.default <$> seq 0 9))
      noCandidates.
Proof.
  apply (scale_loop_scans_until_first_stop Runs.default 12 60 (Source 100 100) 9).
  - vm_compute. reflexivity.
  - intros j Hj. do 9 (destruct j as [| j]; [vm_compute; reflexivity |]). lia.
  - lia.
Defined.

(** C6, as stated, fails: with [scaleFactor = 1] the factor never
    leaves 1.0, where a 100 x 100 image and a 20 x 20 window meet no
    stop condition: the scale loop ends for no amount of fuel, be it
    scanning the same level again and again or, with [minSize] above
    the image, passing over it again and again. *)
Lemma scale_loop_never_ends_at_factor_one :
  (scaleFactor Runs.stuck <=? 1)%float = true
  /\ neverEnds (fun levels fuel => scan Runs.stuckOversized levels fuel (Source 100 100))
  /\ ~ (exists levels fuel c, scan Runs.stuck levels fuel (Source 100 100) = Done c).
Proof.
  split; [reflexivity |]. split.
  - intros levels fuel. unfold scan. apply scaleLoop_skipping_forever.
    + intros j. replace (factorFrom Runs.stuckOversized 1 j) with 1%float; [by vm_compute |].
      induction j as [| j IH]; [reflexivity | exact IH].
    + intros j. replace (factorFrom Runs.stuckOversized 1 j) with 1%float; [by vm_compute |].
      induction j as [| j IH]; [reflexivity | exact IH].
  - intros (levels & fuel & c & Hrun). revert Hrun.
    apply scaleLoop_fixed_factor; [reflexivity | by vm_compute].
Qed.

Lemma degenerate_scan_ends_only_at_a_stop_witness :
  scan Runs.oversized 12 0 (Source 100 100) = Done noCandidates
  /\ neverEnds (fun levels fuel => scan Runs.stuckOversized levels fuel (Source 100 100)).
Proof.
  split.
  - apply (proj1 (proj1 (degenerate_scan_ends_only_at_a_stop Runs.oversized (Source 100 100))
                    ltac:(left; vm_compute; reflexivity)) 9%nat).
    + vm_compute. reflexivity.
    + intros j Hj. do 9 (destruct j as [| j]; [vm_compute; reflexivity |]). lia.
    + lia.
  - apply (proj2 (proj1 (degenerate_scan_ends_only_at_a_stop Runs.stuckOversized
                           (Source 100 100))
                    ltac:(left; vm_compute; reflexivity))).
    intros k.
    rewrite (proj1 (proj2 (degenerate_scan_ends_only_at_a_stop Runs.stuckOversized
                             (Source 100 100)) eq_refl) k).
    vm_compute. reflexivity.
Defined.

(** Two runs of the scan, on classifier states that score alike and
    on different amounts of fuel. *)
Lemma scan_deterministic_witness :
  scan Runs.bordering 40 100 (Source 71 71) = scan Runs.bordering' 60 200 (Source 71 71).
Proof.
  assert (Hsame : sameScanner Runs.bordering Runs.bordering').
  { unfold sameScanner. do 4 (split; [reflexivity |]).
    intros [r0 c0 | m0 sz0 | [r1 c1 | m1 sz1 | m1 r1] r2]; cbn; try reflexivity.
    by rewrite orb_comm. }
  assert (H1 : scan Runs.bordering 40 100 (Source 71 71) = Done Runs.borderCandidates)
    by (vm_compute; reflexivity).
  assert (H2 : scan Runs.bordering' 60 200 (Source 71 71) = Done Runs.borderCandidates)
    by (vm_compute; reflexivity).
  exact (eq_trans H1
           (eq_trans (f_equal Done
                        (scan_deterministic Runs.bordering Runs.bordering' Hsame
                           (Source 71 71) 40 100 60 200 _ _ H1 H2))
                     (eq_sym H2))).
Defined.

(** ** The driver *)

(** Nothing is found in a 30 x 40 image that the classifier rejects:
    the full image is emitted, with confidence 1. *)
Lemma fallback_iff_no_cluster_witness :
  projectImage Clustering.groupRectangles Runs.default 12 60 Runs.plain false
    (Source 30 40) []
  = Done [emitted Runs.plain (Source 30 40) (QInt 1) (mkRect 0 0 40 30)].
Proof.
  refine (proj1 (proj2 (proj2
            (fallback_iff_no_cluster Clustering.groupRectangles Runs.default 12 60 Runs.plain
               false (Source 30 40) [] noCandidates _ _))) _ _).
  - vm_compute. reflexivity.
  - reflexivity.
  - reflexivity.
  - reflexivity.
Defined.

(** On a 40 x 30 image, with a classifier that accepts every window,
    all the candidates of the scan lie within the image. *)
Lemma accepted_windows_lie_within_image :
  match scan Runs.greedy 12 60 (Source 30 40) with
  | Done c => forallb (withinb 40 30) (rects c) && (0 <? Z.of_nat (length (rects c)))
  | _ => false
  end = true.
Proof. vm_compute. reflexivity. Qed.



(** C8, as stated, fails: an input whose image has zero area (a 0 x 0
    matrix) and whose [enrollAll] flag is false is scanned like any
    other; the record emitted is not the input: it carries the
    rectangle [(0, 0, 0, 0)] and the confidence 1. *)
Lemma zero_area_image_gets_a_detection :
  rows (Source 0 0) * cols (Source 0 0) = 0
  /\ getBool (file Runs.zeroArea) "enrollAll" = false
  /\ project_list Clustering.groupRectangles Runs.default 12 60 [Runs.zeroArea] []
     = Done [emitted Runs.plain (Source 0 0) (QInt 1) (mkRect 0 0 0 0)]
  /\ metadata (file (emitted Runs.plain (Source 0 0) (QInt 1) (mkRect 0 0 0 0))) !! "Confidence"
     = Some (QInt 1)
  /\ metadata (file Runs.zeroArea) !! "Confidence" = None.
Proof. repeat split; vm_compute; reflexivity. Qed.

Lemma empty_template_passes_through_witness :
  project_list Clustering.groupRectangles Runs.default 0 0 [Runs.noImage] []
  = Done ([] ++ [Runs.noImage]).
Proof.
  apply (empty_template_passes_through Clustering.groupRectangles Runs.default 0 0
           Runs.noImage [] []); reflexivity.
Defined.

(** A Template of two matrices gives two records, of which [project]
    returns the first, that of the 30 x 40 matrix; a Template without
    matrix whose [enrollAll] flag is set gives none, and the destination
    stays as it was. *)
Lemma project_keeps_first_record_witness :
  project Clustering.groupRectangles Runs.default 12 60 Runs.twoImages Runs.noImage
  = Done (emitted Runs.plain (Source 30 40) (QInt 1) (mkRect 0 0 40 30))
  /\ project Clustering.groupRectangles Runs.default 12 60 Runs.noImageEnrolling
       Runs.borderImage
     = Done Runs.borderImage.
Proof.
  split.
  - refine (proj1 (proj2
              (project_keeps_first_record Clustering.groupRectangles Runs.default 12 60
                 Runs.twoImages Runs.noImage
                 [emitted Runs.plain (Source 30 40) (QInt 1) (mkRect 0 0 40 30);
                  emitted Runs.plain (Source 50 60) (QInt 1) (mkRect 0 0 60 50)] _))
              _ _ eq_refl).
    vm_compute. reflexivity.
  - refine (proj1 (proj2 (proj2
              (project_keeps_first_record Clustering.groupRectangles Runs.default 12 60
                 Runs.noImageEnrolling Runs.borderImage [] _))) eq_refl).
    reflexivity.
Defined.

(** ** Loading the model *)

(** C7 fails on the code: a load from a missing or unreadable model
    file should surface a failure, but on a disk without the model file
    [load] returns normally, with the classifier as it was, and reports
    nothing; [store], on a destination that does not open, at least
    logs a warning. *)
Lemma load_of_missing_file_is_silent :
  (∅ : gmap string Oracle) !! cascadeFile "/opt/openbr" Runs.default = None
  /\ load "/opt/openbr" ∅ Runs.default = Returned Runs.default []
  /\ ~ reportsFailure (load "/opt/openbr" (∅ : gmap string Oracle) Runs.default)
  /\ reportsFailure (store "/opt/openbr" (fun _ => false) (∅ : gmap string Oracle)
                       Runs.default).
Proof.
  assert (Hload : load "/opt/openbr" (∅ : gmap string Oracle) Runs.default
                  = Returned Runs.default []) by reflexivity.
  split; [reflexivity |]. split; [exact Hload |]. split.
  - rewrite Hload. cbn. auto.
  - apply store_warns_when_unwritable. reflexivity.
Qed.

(** * Further properties of the code *)

(** ** What the scan keeps true of its candidates *)

Section ScanInvariants.

Context {Mat C Node : Type} `{MatOps Mat} `{ClassifierOps Mat C Node}.
Variable self : SlidingWindowTransform C.
Variable Inv : Candidates -> Prop.

Lemma scanRow_invariant scaledImage factor pwidth y (fuel : nat) :
  keptByLevel self Inv scaledImage factor ->
  forall (x : Z) (acc a : Candidates),
  Inv acc ->
  scanRow self fuel scaledImage factor pwidth y x acc = Done a ->
  Inv a.
Proof.
  intros Hkept. induction fuel as [| fuel IH]; intros x acc a Hacc Hrun; [discriminate |].
  cbn [scanRow] in Hrun. destruct (x <? pwidth); [| congruence].
  unfold visit in Hrun.
  destruct (0 <? score self scaledImage x y)%float eqn:Hpos;
    eapply IH; try exact Hrun; [by apply Hkept | exact Hacc].
Qed.

Lemma scanRows_invariant scaledImage factor psize fuel (n : nat) :
  keptByLevel self Inv scaledImage factor ->
  forall (y : Z) (acc a : Candidates),
  Inv acc ->
  scanRows self n fuel scaledImage factor psize y acc = Done a ->
  Inv a.
Proof.
  intros Hkept. induction n as [| n IH]; intros y acc a Hacc Hrun; [discriminate |].
  cbn [scanRows] in Hrun. destruct (y <? height psize); [| congruence].
  apply bind_Done in Hrun as (acc' & Hrow & Hrest).
  eapply IH; [| exact Hrest].
  eapply scanRow_invariant; [exact Hkept | exact Hacc | exact Hrow].
Qed.

Lemma scaleLoop_invariant fuel image (levels : nat) :
  (forall factor,
     stops self image factor = false -> skips self factor = false ->
     keptByLevel self Inv (resize image (scaledImageSize image factor)) factor) ->
  forall (factor : float) (acc a : Candidates),
  Inv acc ->
  scaleLoop self levels fuel image factor acc = Done a ->
  Inv a.
Proof.
  intros Hkept. induction levels as [| levels IH]; intros factor acc a Hacc Hrun;
    [discriminate |].
  cbn [scaleLoop] in Hrun.
  destruct (stops self image factor) eqn:Hstop; [congruence |].
  destruct (skips self factor) eqn:Hskip; [by eapply IH |].
  apply bind_Done in Hrun as (acc' & Hlevel & Hrest).
  eapply IH; [| exact Hrest].
  eapply scanRows_invariant; [by apply Hkept | exact Hacc | exact Hlevel].
Qed.

End ScanInvariants.

Section ScanNeverOutOfRange.

Context {Mat C Node : Type} `{MatOps Mat} `{ClassifierOps Mat C Node}.
Variable self : SlidingWindowTransform C.

Lemma scanRow_in_range scaledImage factor pwidth y (fuel : nat) :
  forall (x : Z) (acc : Candidates),
  scanRow self fuel scaledImage factor pwidth y x acc <> OutOfRange.
Proof.
  induction fuel as [| fuel IH]; intros x acc; [discriminate |].
  cbn [scanRow]. destruct (x <? pwidth); [| discriminate].
  destruct (visit self scaledImage factor y x acc). apply IH.
Qed.

Lemma scanRows_in_range scaledImage factor psize fuel (n : nat) :
  forall (y : Z) (acc : Candidates),
  scanRows self n fuel scaledImage factor psize y acc <> OutOfRange.
Proof.
  induction n as [| n IH]; intros y acc; [discriminate |].
  cbn [scanRows]. destruct (y <? height psize); [| discriminate].
  pose proof (scanRow_in_range scaledImage factor (width psize) y fuel 0 acc) as Hrow.
  destruct (scanRow self fuel scaledImage factor (width psize) y 0 acc); cbn;
    [apply IH | discriminate | done].
Qed.

Lemma scaleLoop_in_range fuel image (levels : nat) :
  forall (factor : float) (acc : Candidates),
  scaleLoop self levels fuel image factor acc <> OutOfRange.
Proof.
  induction levels as [| levels IH]; intros factor acc; [discriminate |].
  cbn [scaleLoop]. destruct (stops self image factor); [discriminate |].
  destruct (skips self factor); [apply IH |].
  unfold scanLevel.
  pose proof (scanRows_in_range (resize image (scaledImageSize image factor)) factor
                (processingRectSize self image factor) fuel fuel 0 acc) as Hlevel.
  destruct (scanRows self fuel fuel _ factor _ 0 acc); cbn;
    [apply IH | discriminate | done].
Qed.

(** X1: the candidates of a scan that ends are well formed: [rects],
    [rejectLevels] and [levelWeights] have the same length, every
    reject level is 1 and every weight is strictly positive. *)
Theorem scan_candidates_well_formed levels fuel image c :
  scan self levels fuel image = Done c ->
  wellFormed c.
Proof.
  unfold scan. apply (scaleLoop_invariant self wellFormed).
  - intros factor _ _ acc x y (Hl & Hw & Hone & Hpos) Hscore.
    unfold wellFormed, push_back. cbn [rects rejectLevels levelWeights].
    rewrite !length_app, Hl, Hw. repeat split; try reflexivity.
    + apply Forall_app. split; [exact Hone | by repeat constructor].
    + apply Forall_app. split; [exact Hpos | by repeat constructor].
  - unfold wellFormed, noCandidates. cbn. repeat split; constructor.
Qed.

(** X2: every candidate of a scan that ends has a size the scale loop
    lets through: at least [minSize] and at most [maxObjectSize] (the
    image size when [maxSize] is not positive), in width and in
    height. *)
Theorem scan_candidate_sizes_allowed levels fuel image c :
  scan self levels fuel image = Done c ->
  Forall (sizeAllowed self image) (rects c).
Proof.
  unfold scan.
  apply (scaleLoop_invariant self (fun c => Forall (sizeAllowed self image) (rects c))).
  - intros factor Hstop Hskip acc x y Hacc _.
    unfold push_back. cbn [rects]. apply Forall_app. split; [exact Hacc |].
    repeat constructor; unfold candidateRect, rectAt; cbn [rwidth rheight];
      revert Hstop Hskip; unfold stops, skips, minObjectSize; cbn [width height];
      rewrite !orb_false_iff, !Z.gtb_ltb, !Z.ltb_ge; lia.
  - constructor.
Qed.

(** X3: with a classifier that scores no window above 0, a scan records
    nothing: it ends with the three vectors empty, or it does not end. *)
Theorem scan_without_positive_score_finds_nothing levels fuel image :
  (forall window, (0 <? classify (classifier self) window)%float = false) ->
  scan self levels fuel image = Done noCandidates
  \/ scan self levels fuel image = OutOfFuel.
Proof.
  intros Hnone.
  destruct (scan self levels fuel image) as [c | |] eqn:Hrun; [left | by right |].
  - f_equal. revert Hrun. unfold scan.
    apply (scaleLoop_invariant self (fun c => c = noCandidates)); [| reflexivity].
    intros factor _ _ acc x y _ Hscore. unfold score in Hscore.
    rewrite Hnone in Hscore. discriminate.
  - exfalso. by apply (scaleLoop_in_range fuel image levels 1%float noCandidates).
Qed.

End ScanNeverOutOfRange.

(** ** What the driver does with its records *)

Lemma bind_bind {A B D : Type} (o : outcome A) (f : A -> outcome B) (g : B -> outcome D) :
  (o ≫= f) ≫= g = o ≫= (fun a => f a ≫= g).
Proof. by destruct o. Qed.

Section DriverFacts.

Context {Mat C Node : Type} `{MatOps Mat} `{ClassifierOps Mat C Node}.
Variable groupRectangles : Clusterer.
Variable self : SlidingWindowTransform C.

(** X4: the record of a rectangle keeps the name of the input's file
    and all of its metadata but three keys: it holds the one image, the
    confidence under "Confidence", the rectangle under "Face", and under
    "Rects" the rectangles the input had, followed by the new one. *)
Theorem detection_keeps_other_metadata (f : File) (image : Mat) c j r u :
  detection f image c j r = Done u ->
  name (file u) = name f
  /\ mats u = [image]
  /\ (exists conf, confidence c j = Done conf
                   /\ metadata (file u) !! "Confidence" = Some conf)
  /\ metadata (file u) !! "Face" = Some (QRectF r)
  /\ fileRects (file u) = fileRects f ++ [r]
  /\ (forall key, key <> "Confidence" -> key <> "Rects" -> key <> "Face" ->
        metadata (file u) !! key = metadata f !! key).
Proof.
  unfold detection. destruct (confidence c j) as [conf | |]; cbn; intros Hu;
    try discriminate.
  injection Hu as <-. unfold fromRect, appendRect, fileRects, set.
  cbn [file mats name metadata].
  split; [reflexivity |]. split; [reflexivity |]. split; [| split; [| split]].
  - exists conf. split; [reflexivity |].
    rewrite lookup_insert_ne by done. rewrite lookup_insert_ne by done.
    by rewrite lookup_insert_eq.
  - by rewrite lookup_insert_eq.
  - rewrite lookup_insert_ne by done. rewrite lookup_insert_eq.
    by rewrite lookup_insert_ne by done.
  - intros key Hc Hr Hf. by rewrite !lookup_insert_ne by done.
Qed.

Lemma emit_extends f (image : Mat) c (rest : list Rect) :
  forall (j : nat) (dst r : list (Template Mat)),
  emit f image c j rest dst = Done r ->
  exists out, r = dst ++ out /\ length out = length rest.
Proof.
  induction rest as [| rect rest IH]; intros j dst r Hrun; cbn [emit] in Hrun.
  - exists []. split; [by rewrite app_nil_r; congruence | reflexivity].
  - apply bind_Done in Hrun as (u & _ & Hrest).
    apply IH in Hrest as (out & -> & Hlen).
    exists (u :: out). split; [by rewrite <- app_assoc | cbn; lia].
Qed.

Lemma projectImage_extends levels fuel f enrollAll m (dst r : list (Template Mat)) :
  projectImage groupRectangles self levels fuel f enrollAll m dst = Done r ->
  exists out, r = dst ++ out /\ (enrollAll = false -> (1 <= length out)%nat).
Proof.
  unfold projectImage. intros Hrun.
  apply bind_Done in Hrun as (raw & _ & Hemit).
  apply emit_extends in Hemit as (out & -> & Hlen).
  exists out. split; [reflexivity |]. intros ->. rewrite Hlen.
  set (c := groupRectangles raw (minNeighbors self) (eps self)).
  unfold withFallback. cbn [negb andb]. case_bool_decide as Hr.
  - cbn [rects]. rewrite length_app. cbn. lia.
  - destruct (rects c); [done | cbn; lia].
Qed.

Lemma projectMats_extends levels fuel f enrollAll (ms : list Mat) :
  forall (dst r : list (Template Mat)),
  projectMats groupRectangles self levels fuel f enrollAll ms dst = Done r ->
  exists out, r = dst ++ out /\ (enrollAll = false -> (length ms <= length out)%nat).
Proof.
  induction ms as [| m ms IH]; intros dst r Hrun; cbn [projectMats] in Hrun.
  - exists []. split; [by rewrite app_nil_r; congruence | cbn; lia].
  - apply bind_Done in Hrun as (mid & Himage & Hrest).
    apply projectImage_extends in Himage as (out1 & -> & Hone).
    apply IH in Hrest as (out2 & -> & Hmany).
    exists (out1 ++ out2). split; [by rewrite app_assoc |].
    intros He. specialize (Hone He). specialize (Hmany He).
    rewrite length_app. cbn. lia.
Qed.

Lemma project_list_output levels fuel (src : list (Template Mat)) :
  forall (dst r : list (Template Mat)),
  project_list groupRectangles self levels fuel src dst = Done r ->
  exists out,
    r = dst ++ out
    /\ (Forall (fun t => getBool (file t) "enrollAll" = false) src ->
        (length src <= length out)%nat).
Proof.
  induction src as [| t src IH]; intros dst r Hrun; cbn [project_list] in Hrun.
  - exists []. split; [by rewrite app_nil_r; congruence | cbn; lia].
  - destruct (empty t && negb (getBool (file t) "enrollAll")) eqn:Hpass.
    + apply IH in Hrun as (out & -> & Hmany).
      exists (t :: out). split; [by rewrite <- app_assoc |].
      intros Hall. apply Forall_cons in Hall as [_ Hall]. specialize (Hmany Hall).
      cbn. lia.
    + apply bind_Done in Hrun as (mid & Hmats & Hrest).
      apply projectMats_extends in Hmats as (out1 & -> & Hone).
      apply IH in Hrest as (out2 & -> & Hmany).
      exists (out1 ++ out2). split; [by rewrite app_assoc |].
      intros Hall. apply Forall_cons in Hall as [He Hall].
      specialize (Hone He). specialize (Hmany Hall).
      rewrite He in Hpass. cbn [negb] in Hpass. rewrite andb_true_r in Hpass.
      unfold empty in Hpass. destruct (mats t); [discriminate |].
      rewrite length_app. cbn in *. lia.
Qed.

(** X5: [project] on a list only appends: when it ends, the records
    the destination held come first in the result, unchanged and in
    their order. *)
Theorem project_list_extends_destination levels fuel src (dst r : list (Template Mat)) :
  project_list groupRectangles self levels fuel src dst = Done r ->
  exists out, r = dst ++ out.
Proof.
  intros Hrun. apply project_list_output in Hrun as (out & -> & _). by exists out.
Qed.

(** X6: when no input has its [enrollAll] flag set, [project] on a
    list drops no input: it appends at least one record for each
    Template of the source list, be it empty or not. *)
Theorem project_list_drops_no_input levels fuel src (dst r : list (Template Mat)) :
  Forall (fun t => getBool (file t) "enrollAll" = false) src ->
  project_list groupRectangles self levels fuel src dst = Done r ->
  (length dst + length src <= length r)%nat.
Proof.
  intros Hall Hrun. apply project_list_output in Hrun as (out & -> & Hmany).
  specialize (Hmany Hall). rewrite length_app. lia.
Qed.

(** X7: [project] on a list works through its source from left to
    right: the result for [src1 ++ src2] is that for [src2], started on
    the result for [src1]. *)
Theorem project_list_app levels fuel (src1 src2 dst : list (Template Mat)) :
  project_list groupRectangles self levels fuel (src1 ++ src2) dst
  = project_list groupRectangles self levels fuel src1 dst
    ≫= project_list groupRectangles self levels fuel src2.
Proof.
  revert dst. induction src1 as [| t src1 IH]; intros dst; [reflexivity |].
  cbn [app project_list].
  destruct (empty t && negb (getBool (file t) "enrollAll")); [apply IH |].
  rewrite bind_bind.
  destruct (projectMats groupRectangles self levels fuel (file t)
              (getBool (file t) "enrollAll") (mats t) dst); cbn; [apply IH | done..].
Qed.

(** X8: when the scan of an image ends and the clusterer returns its
    three vectors aligned, the image gives exactly one record for each
    rectangle that is left after clustering and fall-back, in the order
    of the rectangles, each holding the converted image and its
    rectangle. *)
Theorem projectImage_one_record_per_rectangle levels fuel f enrollAll m dst raw :
  let image := cvtUChar m in
  let clusters := groupRectangles raw (minNeighbors self) (eps self) in
  scan self levels fuel image = Done raw ->
  length (rejectLevels clusters) = length (rects clusters) ->
  length (levelWeights clusters) = length (rects clusters) ->
  exists out,
    projectImage groupRectangles self levels fuel f enrollAll m dst = Done (dst ++ out)
    /\ Forall2 (fun u r => exists conf, u = emitted f image conf r) out
               (rects (withFallback enrollAll image clusters)).
Proof.
  intros image clusters Hscan Hrl Hlw.
  unfold projectImage. fold image. rewrite Hscan. cbn [mbind outcome_bind]. fold clusters.
  apply emit_records. intros i _.
  destruct (withFallback_cases enrollAll image clusters) as [(_ & _ & ->) | (_ & ->)];
    cbn [rejectLevels levelWeights]; lia.
Qed.

End DriverFacts.

(** ** Storing and loading *)

Section StoreFacts.

Context {Mat C Node : Type} `{ClassifierOps Mat C Node}.
Variable sdkPath : string.

(** X9: what [store] wrote, [load] reads back.  After a [store] whose
    destination opens, a [load] by a transform of the same [cascadeDir]
    hands its classifier the node that [store] wrote from the stored
    classifier, keeps every other property of the loading transform,
    and logs nothing. *)
Theorem store_then_load (writable : string -> bool) (disk : gmap string Node)
    (self self' : SlidingWindowTransform C) :
  writable (cascadeFile sdkPath self) = true ->
  cascadeDir self' = cascadeDir self ->
  exists disk',
    store sdkPath writable disk self = Returned disk' []
    /\ load sdkPath disk' self'
       = Returned (mkTransform C (read (classifier self') (write (classifier self)))
                     (minSize self') (maxSize self') (scaleFactor self')
                     (minNeighbors self') (eps self') (cascadeDir self'))
                  [].
Proof.
  intros Hw Hdir. unfold store. rewrite Hw. eexists. split; [reflexivity |].
  unfold load.
  replace (cascadeFile sdkPath self') with (cascadeFile sdkPath self)
    by (unfold cascadeFile, cascadePath; by rewrite Hdir).
  by rewrite lookup_insert_eq.
Qed.


End StoreFacts.

(** ** The further properties on concrete runs *)

Lemma scan_candidates_well_formed_witness : wellFormed Runs.borderCandidates.
Proof.
  apply (scan_candidates_well_formed Runs.bordering 40 100 (Source 71 71)).
  vm_compute. reflexivity.
Defined.

Lemma scan_candidate_sizes_allowed_witness :
  Forall (sizeAllowed Runs.bordering (Source 71 71)) (rects Runs.borderCandidates).
Proof.
  apply (scan_candidate_sizes_allowed Runs.bordering 40 100 (Source 71 71)).
  vm_compute. reflexivity.
Defined.

Lemma scan_without_positive_score_finds_nothing_witness :
  scan Runs.default 12 60 (Source 30 40) = Done noCandidates
  \/ scan Runs.default 12 60 (Source 30 40) = OutOfFuel.
Proof.
  apply (scan_without_positive_score_finds_nothing Runs.default 12 60 (Source 30 40)).
  intros [r0 c0 | m0 sz0 | [r1 c1 | m1 sz1 | m1 r1] r2]; reflexivity.
Defined.

Lemma detection_keeps_other_metadata_witness :
  metadata (file MoreRuns.labelledRecord) !! "Label" = Some (QInt 3)
  /\ fileRects (file MoreRuns.labelledRecord) = [mkRect 1 2 3 4; mkRect 0 0 40 30].
Proof.
  pose proof (detection_keeps_other_metadata MoreRuns.labelled (Source 30 40) noCandidates
                0 (mkRect 0 0 40 30) MoreRuns.labelledRecord eq_refl)
    as (_ & _ & _ & _ & Hrects & Hother).
  split; [| exact Hrects].
  rewrite (Hother "Label") by done. reflexivity.
Defined.

Lemma project_list_extends_destination_witness :
  exists out, MoreRuns.threeRecords = [Runs.noImage] ++ out.
Proof.
  apply (project_list_extends_destination Clustering.groupRectangles Runs.default 12 60
           [Runs.twoImages] [Runs.noImage]).
  vm_compute. reflexivity.
Defined.

Lemma project_list_drops_no_input_witness :
  (length (@nil (Template SymMat)) + length [Runs.noImage; Runs.twoImages]
   <= length MoreRuns.threeRecords)%nat.
Proof.
  apply (project_list_drops_no_input Clustering.groupRectangles Runs.default 12 60
           [Runs.noImage; Runs.twoImages] []).
  - repeat constructor.
  - vm_compute. reflexivity.
Defined.

Lemma projectImage_one_record_per_rectangle_witness :
  exists out,
    projectImage Clustering.groupRectangles Runs.bordering 40 100 Runs.plain false
      (Source 71 71) []
    = Done ([] ++ out)
    /\ Forall2 (fun u r => exists conf, u = emitted Runs.plain (Source 71 71) conf r) out
         (rects (withFallback false (Source 71 71)
                   (Clustering.groupRectangles Runs.borderCandidates 1 Runs.f0_2))).
Proof.
  refine (projectImage_one_record_per_rectangle Clustering.groupRectangles Runs.bordering
            40 100 Runs.plain false (Source 71 71) [] Runs.borderCandidates _ _ _).
  - vm_compute. reflexivity.
  - apply groupRectangles_aligned.
  - apply groupRectangles_aligned.
Defined.

(** The classifier stored by one transform is the one another transform
    of the same directory loads. *)
Lemma store_then_load_witness :
  exists disk',
    store "/opt/openbr" (fun _ => true) (∅ : gmap string Oracle) Runs.default
    = Returned disk' []
    /\ load "/opt/openbr" disk' Runs.skipping
       = Returned (mkTransform Oracle (Runs.rejecting 20 20) 8 (-1) Runs.f1_2 1 Runs.f0_2
                     "frontal") [].
Proof.
  exact (@store_then_load SymMat Oracle Oracle oracleOps "/opt/openbr" (fun _ => true) ∅
           Runs.default Runs.skipping eq_refl eq_refl).
Defined.

(** ** The record [project] returns for a single Template *)

Section FirstRecord.

Context {Mat C Node : Type} `{MatOps Mat} `{ClassifierOps Mat C Node}.
Variable groupRectangles : Clusterer.
Variable self : SlidingWindowTransform C.

Lemma emit_output f (image : Mat) c (rest : list Rect) :
  forall (j : nat) (dst r : list (Template Mat)),
  emit f image c j rest dst = Done r ->
  exists out,
    r = dst ++ out
    /\ Forall2 (fun u rect => exists conf, u = emitted f image conf rect) out rest.
Proof.
  induction rest as [| rect rest IH]; intros j dst r Hrun; cbn [emit] in Hrun.
  - exists []. split; [by rewrite app_nil_r; congruence | constructor].
  - apply bind_Done in Hrun as (u & Hu & Hrest).
    apply IH in Hrest as (out & -> & Hout).
    exists (u :: out). split; [by rewrite <- app_assoc |].
    constructor; [| exact Hout].
    unfold detection in Hu. destruct (confidence c j) as [conf | |]; try discriminate.
    exists conf. change (Done (emitted f image conf rect) = Done u) in Hu. congruence.
Qed.

(** X11: on a Template that holds at least one matrix and whose
    [enrollAll] flag is not set, [project], when it ends, returns a
    detection in the first matrix: a record of the input's file with
    that one image (converted to 8 bits), a confidence and a
    rectangle. *)
Theorem project_returns_detection_in_first_image levels fuel (src dst u : Template Mat)
    (m : Mat) (ms : list Mat) :
  mats src = m :: ms ->
  getBool (file src) "enrollAll" = false ->
  project groupRectangles self levels fuel src dst = Done u ->
  exists conf r, u = emitted (file src) (cvtUChar m) conf r.
Proof.
  intros Hmats Hflag Hrun. unfold project in Hrun.
  apply bind_Done in Hrun as (temp & Hlist & Hfirst).
  cbn [project_list] in Hlist. unfold empty in Hlist. rewrite Hmats, Hflag in Hlist.
  cbn [negb andb projectMats] in Hlist.
  apply bind_Done in Hlist as (all & Hall & Hend). cbn in Hend.
  apply bind_Done in Hall as (mid & Himage & Hrest).
  pose proof (projectImage_extends _ _ _ _ _ _ _ _ _ Himage) as (out0 & Hmid & Hone).
  specialize (Hone eq_refl).
  unfold projectImage in Himage. apply bind_Done in Himage as (raw & _ & Hemit).
  apply emit_output in Hemit as (out1 & -> & Hout).
  apply projectMats_extends in Hrest as (out2 & -> & _).
  cbn [app] in *. subst out0.
  destruct Hout as [| first rect out1 rest [conf ->] _]; [cbn in Hone; lia |].
  exists conf, rect. cbn [app] in Hend. injection Hend as <-.
  change (Done (emitted (file src) (cvtUChar m) conf rect) = Done u) in Hfirst.
  congruence.
Qed.

End FirstRecord.

Lemma project_returns_detection_in_first_image_witness :
  exists conf r,
    emitted Runs.plain (Source 30 40) (QInt 1) (mkRect 0 0 40 30)
    = emitted (file Runs.twoImages) (cvtUChar (Source 30 40)) conf r.
Proof.
  refine (project_returns_detection_in_first_image Clustering.groupRectangles Runs.default
            12 60 Runs.twoImages Runs.noImage _ (Source 30 40) [Source 50 60]
            eq_refl eq_refl _).
  vm_compute. reflexivity.
Defined.

(** ** Inputs without an image *)

Section ImagelessInputs.

Context {Mat C Node : Type} `{MatOps Mat} `{ClassifierOps Mat C Node}.
Variable groupRectangles : Clusterer.
Variable self : SlidingWindowTransform C.

(** X12: a Template that holds no matrix and whose [enrollAll] flag is
    set leaves no trace in the output: wherever it stands in the source
    list, the result is that of the list without it. *)
Theorem imageless_enrollAll_input_vanishes levels fuel (t : Template Mat)
    (src1 src2 dst : list (Template Mat)) :
  mats t = [] ->
  getBool (file t) "enrollAll" = true ->
  project_list groupRectangles self levels fuel (src1 ++ t :: src2) dst
  = project_list groupRectangles self levels fuel (src1 ++ src2) dst.
Proof.
  intros Hmats Hflag. revert dst.
  induction src1 as [| t1 src1 IH]; intros dst; cbn [app project_list].
  - unfold empty. rewrite Hmats, Hflag. reflexivity.
  - destruct (empty t1 && negb (getBool (file t1) "enrollAll")); [apply IH |].
    destruct (projectMats groupRectangles self levels fuel (file t1)
                (getBool (file t1) "enrollAll") (mats t1) dst); cbn; [apply IH | done..].
Qed.

(** X13: a list of Templates none of which holds a matrix or has its
    [enrollAll] flag set passes through as it is: the source is appended
    to the destination, unchanged and in order, without any step of a
    scan (no fuel is needed). *)
Theorem imageless_inputs_pass_through levels fuel (src dst : list (Template Mat)) :
  Forall (fun t => mats t = [] /\ getBool (file t) "enrollAll" = false) src ->
  project_list groupRectangles self levels fuel src dst = Done (dst ++ src).
Proof.
  intros Hall. revert dst.
  induction Hall as [| t src [Hmats Hflag] _ IH]; intros dst; cbn [project_list].
  - by rewrite app_nil_r.
  - unfold empty. rewrite Hmats, Hflag. cbn [negb andb].
    rewrite IH, <- app_assoc. reflexivity.
Qed.

End ImagelessInputs.

Lemma imageless_enrollAll_input_vanishes_witness :
  project_list Clustering.groupRectangles Runs.default 12 60
    ([Runs.noImage] ++ Runs.noImageEnrolling :: [Runs.noImage]) []
  = project_list Clustering.groupRectangles Runs.default 12 60
      ([Runs.noImage] ++ [Runs.noImage]) [].
Proof.
  exact (imageless_enrollAll_input_vanishes Clustering.groupRectangles Runs.default 12 60
           Runs.noImageEnrolling [Runs.noImage] [Runs.noImage] [] eq_refl eq_refl).
Defined.

Lemma imageless_inputs_pass_through_witness :
  project_list Clustering.groupRectangles Runs.default 0 0
    [Runs.noImage; MoreRuns.labelledNoImage] [Runs.zeroArea]
  = Done ([Runs.zeroArea] ++ [Runs.noImage; MoreRuns.labelledNoImage]).
Proof.
  apply (imageless_inputs_pass_through Clustering.groupRectangles Runs.default 0 0).
  repeat constructor.
Defined.
